(** * update_jupyter_web_app.py: the Jupyter web-app image updater

    A shallow embedding of [py/kubeflow/kubeflow/ci/update_jupyter_web_app.py]
    (class [WebAppUpdater]) and the properties of its parameter patcher,
    image resolution and pull-request pipeline.

    Python [str] values are modelled as [string]; a character is a code
    point below 256.  Dictionaries with string keys are [gmap string _]. *)

From Stdlib Require Import Ascii String ZArith Lia.
From stdpp Require Import base decidable option list gmap strings.

Local Open Scope stdpp_scope.

(** ** Python string primitives used by the script *)

Module Py.

(** [str.isspace] on one code point, which is also the class [\s] of [re]
    for [str] patterns: tab, LF, VT, FF, CR, FS, GS, RS, US, space, NEL and
    the no-break space. *)
Definition isspace (c : ascii) : bool :=
  match c with
  | "009" | "010" | "011" | "012" | "013"
  | "028" | "029" | "030" | "031" | " " | "133" | "160" => true
  | _ => false
  end%char.

(** The pending match of the scanner, emitted when it ends. *)
Definition flush (cur : string) : list string :=
  match cur with
  | "" => []
  | _ => [cur]
  end.

(** [re.findall(r'\S+', s)]: a left-to-right scan; [cur] is the match being
    extended, closed by the first whitespace character or by the end. *)
Fixpoint findall_go (cur s : string) : list string :=
  match s with
  | "" => flush cur
  | String c s' =>
      if isspace c then flush cur ++ findall_go "" s'
      else findall_go (cur +:+ String c "") s'
  end.

Definition findall_S (s : string) : list string := findall_go "" s.

(** [sep.join(l)] *)
Definition join (sep : string) (l : list string) : string :=
  String.concat sep l.

(** [s.split(sep)] for a one-character separator: never an empty list. *)
Fixpoint split (sep : ascii) (s : string) : list string :=
  match s with
  | "" => [""]
  | String c s' =>
      if decide (c = sep) then "" :: split sep s'
      else match split sep s' with
           | t :: ts => String c t :: ts
           | [] => [String c ""]
           end
  end.

(** The part of [s] before the first [sep], and the part after it when
    there is one: [s.split(sep, 1)]. *)
Fixpoint split_once (sep : ascii) (s : string) : string * option string :=
  match s with
  | "" => ("", None)
  | String c s' =>
      if decide (c = sep) then ("", Some s')
      else let '(h, t) := split_once sep s' in (String c h, t)
  end.

(** [s.startswith(p)] *)
Definition startswith (p s : string) : bool := String.prefix p s.

(** [s.endswith(p)] *)
Definition endswith (p s : string) : bool :=
  String.prefix (String.rev p) (String.rev s).

(** The line boundaries of [str.splitlines]: LF, VT, FF, CR, FS, GS, RS and
    NEL; CR followed by LF is one boundary. *)
Definition is_linebreak (c : ascii) : bool :=
  match c with
  | "010" | "011" | "012" | "013" | "028" | "029" | "030" | "133" => true
  | _ => false
  end%char.

(** [s.splitlines()]: the last line is dropped when it is empty. *)
Fixpoint splitlines_go (cur s : string) : list string :=
  match s with
  | "" => flush cur
  | String c s' =>
      if is_linebreak c then
        cur :: match c, s' with
               | "013"%char, String "010"%char s'' => splitlines_go "" s''
               | _, _ => splitlines_go "" s'
               end
      else splitlines_go (cur +:+ String c "") s'
  end.

Definition splitlines (s : string) : list string := splitlines_go "" s.

(** [s.lstrip(c)], [s.rstrip(c)] and [s.strip(c)] for a one-character set. *)
Fixpoint lstrip (c : ascii) (s : string) : string :=
  match s with
  | String a s' => if decide (a = c) then lstrip c s' else s
  | "" => ""
  end.

Fixpoint rstrip (c : ascii) (s : string) : string :=
  match s with
  | "" => ""
  | String a s' =>
      match rstrip c s' with
      | "" => if decide (a = c) then "" else String a ""
      | r => String a r
      end
  end.

Definition strip (c : ascii) (s : string) : string := rstrip c (lstrip c s).

(** Truthiness of an optional string: [None] and [""] are false. *)
Definition truthy (o : option string) : bool :=
  match o with
  | Some (String _ _) => true
  | _ => false
  end.

(** ["{0}".format(x)] for a string or [None]. *)
Definition format0 (o : option string) : string :=
  match o with
  | Some s => s
  | None => "None"
  end.

(** A string the scanner returns whole: not empty, no whitespace. *)
Fixpoint no_space (s : string) : bool :=
  match s with
  | "" => true
  | String c s' => negb (isspace c) && no_space s'
  end.

Definition is_token (s : string) : bool :=
  match s with
  | "" => false
  | _ => no_space s
  end.

End Py.

(** ** The parameter patcher *)

Module WebAppUpdater.

Definition LF : ascii := "010"%char.
Definition dquote : ascii := "034"%char.

(** One iteration of the loop of [_replace_parameters] at index [i], on the
    list being rewritten in place and the dictionary [old]. *)
Definition replace_body (values : gmap string string)
    (st : list string * gmap string string) (i : nat)
    : list string * gmap string string :=
  let '(lines, old) := st in
  match lines !! i with
  | None => st
  | Some line =>
      let pieces := Py.findall_S line in
      if bool_decide (length pieces < 5) then st
      else if bool_decide (pieces !! 0 ≠ Some "//")
              || bool_decide (pieces !! 1 ≠ Some "@optionalParam") then st
      else match pieces !! 2, pieces !! 4 with
           | Some param_name, Some p4 =>
               match values !! param_name with
               | None => st
               | Some v =>
                   (<[i := Py.join " " (<[4 := v]> pieces)]> lines,
                    <[param_name := p4]> old)
               end
           | _, _ => st
           end
  end.

(** The state of the loop after its first [n] iterations. *)
Definition replace_upto (n : nat) (lines : list string)
    (values : gmap string string) : list string * gmap string string :=
  foldl (replace_body values) (lines, ∅) (seq 0 n).

Definition _replace_parameters (lines : list string)
    (values : gmap string string) : list string * gmap string string :=
  replace_upto (length lines) lines values.

(** What one iteration does to a line it rewrites: the new line and the
    entry it records in [old]. *)
Definition line_step (values : gmap string string) (line : string)
    : option (string * (string * string)) :=
  let pieces := Py.findall_S line in
  if bool_decide (length pieces < 5) then None
  else if bool_decide (pieces !! 0 ≠ Some "//")
          || bool_decide (pieces !! 1 ≠ Some "@optionalParam") then None
  else match pieces !! 2, pieces !! 4 with
       | Some param_name, Some p4 =>
           match values !! param_name with
           | None => None
           | Some v => Some (Py.join " " (<[4 := v]> pieces), (param_name, p4))
           end
       | _, _ => None
       end.

Definition patch (values : gmap string string) (line : string) : string :=
  match line_step values line with
  | Some (line', _) => line'
  | None => line
  end.

Definition record (values : gmap string string) (old : gmap string string)
    (line : string) : gmap string string :=
  match line_step values line with
  | Some (_, (k, v)) => <[k := v]> old
  | None => old
  end.

(** A line of the shape [// @optionalParam <name> <type> <value> ...]. *)
Definition declares (name : string) (line : string) : Prop :=
  let pieces := Py.findall_S line in
  5 ≤ length pieces ∧ pieces !! 0 = Some "//"
  ∧ pieces !! 1 = Some "@optionalParam" ∧ pieces !! 2 = Some name.

Global Instance declares_dec name line : Decision (declares name line).
Proof. unfold declares. apply _. Defined.

(** ** Exceptions, collaborators and the effect monad *)

Inductive exn : Type :=
  | ValueError (msg : string)
  | KeyError (key : string)
  | TypeError
  | CalledProcessError
  | V2DiagnosticException (status : Z)
  | OtherError (what : string).

Inductive Res (A : Type) : Type :=
  | Ok (a : A)
  | Raise (e : exn).
Arguments Ok {A} a.
Arguments Raise {A} e.

(** A git remote as the script reads it: [r.name] and [r.urls]. *)
Record remote : Type := Remote { remote_name : string; remote_urls : list string }.

(** What [yaml.load] makes of the file the build wrote: a mapping of field
    names to strings, or a value that is not a mapping ([None] for an empty
    file, a scalar, a list), which cannot be subscripted by a field name. *)
Inductive yaml : Type :=
  | YamlMapping (fields : gmap string string)
  | YamlOther.

(** The calls the script makes on its collaborators, indexed by the type
    of what a call returns.  [env] of [UtilRun] is [None] when the process
    environment is inherited and otherwise the entries set on top of
    [os.environ]. *)
Inductive action : Type → Type :=
  | GitRepo (path : string) : action unit
  | MaybeActivateServiceAccount : action unit
  | UtilRun (argv : list string) (env : option (list (string * option string)))
      (cwd : option string) : action string
  | Getenv (name : string) : action (option string)
  | AppendFile (path content : string) : action unit
  | RepoRemotes : action (list remote)
  | RepoCreateRemote (name url : string) : action remote
  | DockerResolve (image : string) : action unit
  | FromRegistry (image : string) : action string
  | NamedTemporaryFile : action string
  | YamlLoad (path : string) : action yaml
  | ReadFile (path : string) : action string
  | WriteFile (path content : string) : action unit
  | Rename (src dst : string) : action unit
  | RepoActiveBranch : action string
  | RepoBranches : action (list string)
  | IndexAdd (paths : list string) : action unit
  | IndexCommit (message : string) : action unit
  | WriteMessageFile (content : string) : action string.

(** A call together with what it returned or raised. *)
Inductive event : Type :=
  | Ev {T : Type} (a : action T) (r : Res T).

(** What a call is for; commands run through [util.run] are told apart by
    their argument vector. *)
Inductive kind : Set :=
  | KOpenRepo | KActivate | KGitLog | KKeyscan | KGetenv | KAppendFile
  | KRemotes | KAddRemote | KDockerResolve | KFetchManifest | KTempFile
  | KBuild | KLoadYaml | KReadFile | KWriteFile | KRename | KActiveBranch
  | KBranches | KCheckout | KCreateBranch | KListPRs | KIndexAdd | KCommit
  | KPush | KMessageFile | KCreatePR | KOtherCommand.

Global Instance kind_eq_dec : EqDecision kind.
Proof. solve_decision. Defined.

Definition command_kind (argv : list string) : kind :=
  match argv with
  | "git" :: "log" :: _ => KGitLog
  | "ssh-keyscan" :: _ => KKeyscan
  | "make" :: "build-gcb" :: _ => KBuild
  | "git" :: "checkout" :: "-b" :: _ => KCreateBranch
  | "git" :: "checkout" :: _ => KCheckout
  | "git" :: "push" :: _ => KPush
  | "hub" :: "pr" :: "list" :: _ => KListPRs
  | "hub" :: "pull-request" :: _ => KCreatePR
  | _ => KOtherCommand
  end.

Definition kind_of {T : Type} (a : action T) : kind :=
  match a with
  | GitRepo _ => KOpenRepo
  | MaybeActivateServiceAccount => KActivate
  | UtilRun argv _ _ => command_kind argv
  | Getenv _ => KGetenv
  | AppendFile _ _ => KAppendFile
  | RepoRemotes => KRemotes
  | RepoCreateRemote _ _ => KAddRemote
  | DockerResolve _ => KDockerResolve
  | FromRegistry _ => KFetchManifest
  | NamedTemporaryFile => KTempFile
  | YamlLoad _ => KLoadYaml
  | ReadFile _ => KReadFile
  | WriteFile _ _ => KWriteFile
  | Rename _ _ => KRename
  | RepoActiveBranch => KActiveBranch
  | RepoBranches => KBranches
  | IndexAdd _ => KIndexAdd
  | IndexCommit _ => KCommit
  | WriteMessageFile _ => KMessageFile
  end.

Definition ev_kind (ev : event) : kind :=
  match ev with
  | Ev a _ => kind_of a
  end.

Definition kinds (evs : list event) : list kind := ev_kind <$> evs.

(** The exception a failed call raised, if the event is a failed call. *)
Definition ev_raised (ev : event) : option exn :=
  match ev with
  | Ev _ (Raise e) => Some e
  | Ev _ (Ok _) => None
  end.

(** The text a successful [util.run] returned. *)
Definition ev_output (ev : event) : option string :=
  match ev with
  | Ev (UtilRun _ _ _) (Ok out) => Some out
  | _ => None
  end.

(** The document a successful [yaml.load] returned, when it is a
    mapping. *)
Definition ev_document (ev : event) : option (gmap string string) :=
  match ev with
  | Ev (YamlLoad _) (Ok (YamlMapping doc)) => Some doc
  | _ => None
  end.

(** The image reference a manifest fetch was made for. *)
Definition ev_fetched (ev : event) : option string :=
  match ev with
  | Ev (FromRegistry image) _ => Some image
  | _ => None
  end.

(** The collaborators: the outside world [Ext] answers every call, and the
    script is installed under [root_dir] (what [_root_dir] computes). *)
Class Collaborators (Ext : Type) : Type := {
  perform : ∀ T, action T → Ext → Res T * Ext;
  root_dir : string
}.

Section Script.

Context {Ext : Type} `{Collab : Collaborators Ext}.

(** The outside world and the field [self._last_commit]. *)
Record state : Type := State { ext : Ext; _last_commit : option string }.

Record outcome (A : Type) : Type :=
  Outcome { result : Res A; final : state; emitted : list event }.
Arguments Outcome {A} _ _ _.
Arguments result {A} _.
Arguments final {A} _.
Arguments emitted {A} _.

Definition M (A : Type) : Type := state → outcome A.

Definition ret {A : Type} (a : A) : M A := λ s, Outcome (Ok a) s [].

Definition raise {A : Type} (e : exn) : M A := λ s, Outcome (Raise e) s [].

Definition bind {A B : Type} (k : A → M B) (m : M A) : M B := λ s,
  let o := m s in
  match result o with
  | Ok a =>
      let o' := k a (final o) in
      Outcome (result o') (final o') (emitted o ++ emitted o')
  | Raise e => Outcome (Raise e) (final o) (emitted o)
  end.

Global Instance M_ret : MRet M := @ret.
Global Instance M_bind : MBind M := @bind.

(** [try: m except Exception as e: ...]: the exception becomes a value. *)
Definition try {A : Type} (m : M A) : M (Res A) := λ s,
  let o := m s in Outcome (Ok (result o)) (final o) (emitted o).

Definition call {T : Type} (a : action T) : M T := λ s,
  let '(r, e) := perform T a (ext s) in
  Outcome r (State e (_last_commit s)) [Ev a r].

Definition get_last_commit : M (option string) := λ s,
  Outcome (Ok (_last_commit s)) s [].

Definition set_last_commit (v : option string) : M unit := λ s,
  Outcome (Ok tt) (State (ext s) v) [].

(** [d[key]] *)
Definition getitem (d : gmap string string) (key : string) : M string :=
  match d !! key with
  | Some v => ret v
  | None => raise (KeyError key)
  end.

(** [data[key]] on what [yaml.load] returned: [TypeError] when it is not
    a mapping. *)
Definition subscript (data : yaml) (key : string) : M string :=
  match data with
  | YamlMapping d => getitem d key
  | YamlOther => raise TypeError
  end.

(** [os.path.join(a, b)] *)
Definition path_join (a b : string) : string :=
  if Py.startswith "/" b then b
  else if bool_decide (a = "") || Py.endswith "/" a then a +:+ b
  else a +:+ "/" +:+ b.

Definition _root_dir : string := root_dir.

Definition _component_dir : string :=
  path_join (path_join _root_dir "components") "jupyter-web-app".

(** The property [last_commit]. *)
Definition last_commit : M string :=
  cached ← get_last_commit;
  if negb (Py.truthy cached) then
    out ← call (UtilRun ["git"; "log"; "-n"; "1";
                         "--pretty=format:" +:+ String dquote ("%h" +:+ String dquote "");
                         "components/jupyter-web-app"] None (Some _root_dir));
    set_last_commit (Some (Py.strip dquote out));;
    ret (Py.strip dquote out)
  else ret (default "" cached).

Definition build_image (build_project registry_project : string) : M string :=
  git_tag ← get_last_commit;
  name ← call NamedTemporaryFile;
  let env := [("PROJECT", Some build_project);
              ("REGISTRY_PROJECT", Some registry_project);
              ("GIT_TAG", git_tag);
              ("OUTPUT", Some name)] in
  call (UtilRun ["make"; "build-gcb"] (Some env) (Some _component_dir));;
  data ← call (YamlLoad name);
  subscript data "image".

Definition prototype_path : string :=
  path_join (path_join _root_dir "kubeflow/jupyter/prototypes")
            "jupyter-web-app.jsonnet".

Definition update_prototype (image : string) : M (option string) :=
  let values : gmap string string := {[ "image" := image ]} in
  let prototype_file := prototype_path in
  text ← call (ReadFile prototype_file);
  let prototype := Py.split LF text in
  let '(new_lines, old_values) := _replace_parameters prototype values in
  old_image ← getitem old_values "image";
  if bool_decide (old_image = image) then ret None
  else
    let temp_file := prototype_file +:+ ".tmp" in
    call (WriteFile temp_file (Py.join (String LF "") new_lines));;
    call (Rename temp_file prototype_file);;
    ret (Some prototype_file).

Definition _find_remote_repo (remote_url : string) : M (option remote) :=
  remotes ← call RepoRemotes;
  ret (List.find (λ r, bool_decide (remote_url ∈ remote_urls r)) remotes).

Definition _pr_title (commit : option string) : string :=
  "[auto PR] Update the jupyter-web-app image to " +:+ Py.format0 commit.

(** The dictionary title -> identifier built from the listing; a record
    without [;] cannot be unpacked into two names. *)
Fixpoint parse_prs (prs : gmap string string) (lines : list string)
    : Res (gmap string string) :=
  match lines with
  | [] => Ok prs
  | l :: rest =>
      match Py.split_once ";" l with
      | (n, Some t) => parse_prs (<[t := n]> prs) rest
      | (_, None) => Raise (ValueError "not enough values to unpack")
      end
  end.

Definition _check_if_pr_exists (commit : option string) : M bool :=
  commit ← (if negb (Py.truthy commit) then last_commit
            else ret (default "" commit));
  let pr_title := _pr_title (Some commit) in
  output ← call (UtilRun ["hub"; "pr"; "list"; "--format=%U;%t" +:+ String LF ""]
                         None (Some _root_dir));
  let lines := Py.splitlines output in
  match parse_prs ∅ lines with
  | Raise e => raise e
  | Ok prs => ret (bool_decide (is_Some (prs !! pr_title)))
  end.

Definition create_pull_request (base : string) (commit : option string)
    : M unit :=
  let pr_title := _pr_title commit in
  message_file ← call (WriteMessageFile pr_title);
  call (UtilRun ["hub"; "pull-request"; "-f"; "--base=" +:+ base; "-F";
                 message_file] None (Some _root_dir));;
  ret tt.

(** [all], lines 175-196: open the repository, find the revision, check the
    fork URL and make sure the fork is a remote. *)
Definition all_setup (remote_fork : string) (add_github_host : bool)
    : M (string * remote) :=
  call (GitRepo _root_dir);;
  call MaybeActivateServiceAccount;;
  last_commit ← last_commit;
  (if add_github_host then
     output ← call (UtilRun ["ssh-keyscan"; "github.com"] None None);
     home ← call (Getenv "HOME");
     match home with
     | None => raise TypeError
     | Some h =>
         call (AppendFile (path_join (path_join h ".ssh") "known_hosts") output)
     end
   else ret tt);;
  (if negb (Py.startswith "git@github.com" remote_fork)
   then raise (ValueError "Remote fork currently only supports ssh")
   else ret tt);;
  found ← _find_remote_repo remote_fork;
  remote_repo ← match found with
                | Some r => ret r
                | None =>
                    let fork_name :=
                      (Py.split_once "/"
                         (let '(h, t) := Py.split_once ":" remote_fork in
                          default h t)).1 in
                    call (RepoCreateRemote fork_name remote_fork)
                end;
  ret (last_commit, remote_repo).

(** [all], lines 198-223: the image tagged with the revision, from the
    registry when it is there and from a build when it is not. *)
Definition all_resolve_image (build_project registry_project : string)
    : M string :=
  let base := "gcr.io/" +:+ registry_project +:+ "/jupyter-web-app" in
  revision ← last_commit;
  let image := base +:+ ":" +:+ revision in
  call (DockerResolve image);;
  fetched ← try (call (FromRegistry image));
  image_exists ← match fetched with
                 | Ok _ => ret true
                 | Raise (V2DiagnosticException status) =>
                     if bool_decide (status = 404%Z) then ret false
                     else raise (V2DiagnosticException status)
                 | Raise e => raise e
                 end;
  if negb image_exists then build_image build_project registry_project
  else ret image.

(** [all], lines 227-260: patch the prototype and publish the change. *)
Definition all_publish (last_commit : string) (remote_repo : remote)
    (image : string) : M unit :=
  prototype_file ← update_prototype image;
  if negb (Py.truthy prototype_file) then ret tt
  else
    let branch_name := "update_jupyter_" +:+ last_commit in
    active ← call RepoActiveBranch;
    (if bool_decide (active ≠ branch_name) then
       branch_names ← call RepoBranches;
       if bool_decide (branch_name ∈ branch_names) then
         call (UtilRun ["git"; "checkout"; branch_name] None (Some _root_dir));;
         ret tt
       else
         call (UtilRun ["git"; "checkout"; "-b"; branch_name] None
                       (Some _root_dir));;
         ret tt
     else ret tt);;
    pr_exists ← _check_if_pr_exists (Some last_commit);
    if (pr_exists : bool) then ret tt
    else
      call (IndexAdd [default "" prototype_file]);;
      call (IndexCommit ("Update the jupyter web app image to " +:+ image));;
      call (UtilRun ["git"; "push"; "-f"; remote_name remote_repo] None
                    (Some _root_dir));;
      create_pull_request "kubeflow:master" (Some last_commit).

Definition all (build_project registry_project remote_fork : string)
    (add_github_host : bool) : M unit :=
  '(last_commit, remote_repo) ← all_setup remote_fork add_github_host;
  image ← all_resolve_image build_project registry_project;
  all_publish last_commit remote_repo image.

End Script.

Arguments state : clear implicits.
Arguments M : clear implicits.
Arguments outcome : clear implicits.
Arguments State {Ext} _ _.
Arguments ext {Ext} _.
Arguments _last_commit {Ext} _.
Arguments Outcome {Ext A} _ _ _.
Arguments result {Ext A} _.
Arguments final {Ext A} _.
Arguments emitted {Ext A} _.

Global Instance exn_eq_dec : EqDecision exn.
Proof. solve_decision. Defined.

(** *** What a run shows *)

(** Every call of the run returned. *)
Definition succeeded (evs : list event) : bool :=
  forallb (λ ev, bool_decide (ev_raised ev = None)) evs.

(** No environment variable the run asked for was unset. *)
Definition ev_unset (ev : event) : bool :=
  match ev with
  | Ev (Getenv _) (Ok None) => true
  | _ => false
  end.

Definition env_set (evs : list event) : bool :=
  forallb (λ ev, negb (ev_unset ev)) evs.

(** The manifest fetches of a run: the reference asked for and the
    exception, if the fetch failed. *)
Definition fetches (evs : list event) : list (string * option exn) :=
  omap (λ ev, (λ image, (image, ev_raised ev)) <$> ev_fetched ev) evs.

(** The build documents a run loaded, those that are mappings. *)
Definition documents (evs : list event) : list (gmap string string) :=
  omap ev_document evs.

(** The listings of open pull requests a run obtained. *)
Definition listings (evs : list event) : list string :=
  omap (λ ev, if bool_decide (ev_kind ev = KListPRs) then ev_output ev
              else None) evs.

(** The text a successful read returned. *)
Definition ev_read (ev : event) : option string :=
  match ev with
  | Ev (ReadFile _) (Ok text) => Some text
  | _ => None
  end.

(** The texts of the prototype file a run read. *)
Definition reads (evs : list event) : list string := omap ev_read evs.

(** The image a run resolved: the one fetched when its manifest is in the
    registry, the [image] field of the build document when the registry
    answered 404. *)
Definition resolved (evs : list event) : option string :=
  match fetches evs with
  | [(image, None)] => Some image
  | [(_, Some (V2DiagnosticException 404))] =>
      match documents evs with
      | [doc] => doc !! "image"
      | _ => None
      end
  | _ => None
  end.

(** The previous value the patcher records for [image] when the prototype
    text is patched with the new image. *)
Definition previous_image (text image : string) : option string :=
  (_replace_parameters (Py.split LF text) {[ "image" := image ]}).2 !! "image".

(** How many calls of kind [k] a run made. *)
Definition count (k : kind) (evs : list event) : nat :=
  length (filter (λ k', k' = k) (kinds evs)).

(** A listing has a record [identifier;title] with this title. *)
Definition listed (title output : string) : bool :=
  existsb (λ l, bool_decide ((Py.split_once ";" l).2 = Some title))
          (Py.splitlines output).

(** The steps that publish a change: staging, commit, push, and the
    pull request with its message file. *)
Definition publishing : list kind :=
  [KIndexAdd; KCommit; KPush; KMessageFile; KCreatePR].

(** The steps that may come before the fork URL is checked. *)
Definition preliminary : list kind :=
  [KOpenRepo; KActivate; KGitLog; KKeyscan; KGetenv; KAppendFile].

Section Logic.

Context {Ext : Type} `{Collab : Collaborators Ext}.

(** [Q] holds of the result, the final state and the events of [m] run
    from [s]. *)
Definition wp {A : Type} (m : M Ext A) (s : state Ext)
    (Q : Res A → state Ext → list event → Prop) : Prop :=
  Q (result (m s)) (final (m s)) (emitted (m s)).

End Logic.

End WebAppUpdater.

Import WebAppUpdater.

(** ** Runs against scripted collaborators *)

(** Collaborators that answer from a fixed script: what [git log] prints,
    [$HOME], the remotes, the answer of the registry, the document the build
    writes, the text of the prototype file, the branches and the listing of
    open pull requests.  Every other call succeeds. *)
Record script : Type := Script {
  git_log_output : string;
  home : option string;
  remotes : list remote;
  manifest : Res string;
  build_document : Res yaml;
  prototype_text : string;
  active_branch : string;
  branches : list string;
  pr_listing : string
}.

Definition scripted_answer (w : script) {T : Type} (a : action T) : Res T :=
  match a in action T return Res T with
  | GitRepo _ => Ok tt
  | MaybeActivateServiceAccount => Ok tt
  | UtilRun argv _ _ =>
      match command_kind argv with
      | KGitLog => Ok (git_log_output w)
      | KListPRs => Ok (pr_listing w)
      | _ => Ok ""
      end
  | Getenv _ => Ok (home w)
  | AppendFile _ _ => Ok tt
  | RepoRemotes => Ok (remotes w)
  | RepoCreateRemote name url => Ok (Remote name [url])
  | DockerResolve _ => Ok tt
  | FromRegistry _ => manifest w
  | NamedTemporaryFile => Ok "/tmp/tmpq1w2e3"
  | YamlLoad _ => build_document w
  | ReadFile _ => Ok (prototype_text w)
  | WriteFile _ _ => Ok tt
  | Rename _ _ => Ok tt
  | RepoActiveBranch => Ok (active_branch w)
  | RepoBranches => Ok (branches w)
  | IndexAdd _ => Ok tt
  | IndexCommit _ => Ok tt
  | WriteMessageFile _ => Ok "/tmp/tmpmsg"
  end.

Global Instance scripted : Collaborators script := {|
  perform T a w := (scripted_answer w a, w);
  root_dir := "/src/kubeflow"
|}.

(** A fresh [WebAppUpdater] in the world [w]. *)
Definition fresh (w : script) : state script := State w None.

(** A world in which the revision is [abc123], the remotes, branches and
    [$HOME] are the usual ones, and the registry, the prototype file and
    the listing of pull requests are as given. *)
Definition world (registry : Res string) (prototype listing : string)
    : script := {|
  git_log_output := String dquote ("abc123" +:+ String dquote "");
  home := Some "/root";
  remotes := [Remote "origin" ["git@github.com:kubeflow/kubeflow.git"]];
  manifest := registry;
  build_document :=
    Ok (YamlMapping {[ "image" := "gcr.io/proj/jupyter-web-app:abc123" ]});
  prototype_text := prototype;
  active_branch := "master";
  branches := ["master"];
  pr_listing := listing
|}.

(** The image is not in the registry and the prototype holds an older
    image. *)
Definition usual : script :=
  world (Raise (V2DiagnosticException 404))
    "// @optionalParam image string gcr.io/proj/jupyter-web-app:old000 The image"
    "".

(** The image is in the registry and the prototype already holds it. *)
Definition current : script :=
  world (Ok "sha256:0f3c")
    "// @optionalParam image string gcr.io/proj/jupyter-web-app:abc123 The image"
    "".

(** A pull request for revision [abc123] is open. *)
Definition proposed : script :=
  world (Raise (V2DiagnosticException 404))
    "// @optionalParam image string gcr.io/proj/jupyter-web-app:old000 The image"
    ("https://github.com/kubeflow/kubeflow/pull/2601;"
     +:+ "[auto PR] Update the jupyter-web-app image to abc123"
     +:+ String LF "").

(** The registry answers with a server error. *)
Definition registry_down : script :=
  world (Raise (V2DiagnosticException 500))
    "// @optionalParam image string gcr.io/proj/jupyter-web-app:old000 The image"
    "".

(** The prototype declares no parameter [image]. *)
Definition unparameterised : script :=
  world (Raise (V2DiagnosticException 404))
    "// @optionalParam port number 80 The port"
    "".

Definition fork_ssh : string := "git@github.com:jlewi/kubeflow.git".


(** ** Further observations of a run *)

(** [c in s] for a character [c]. *)
Fixpoint contains (c : ascii) (s : string) : bool :=
  match s with
  | "" => false
  | String a s' => bool_decide (a = c) || contains c s'
  end.

(** The name [all] gives the remote it adds for a fork URL:
    [remote_fork.split(":", 1)[-1].split("/", 1)[0]]. *)
Definition fork_name (remote_fork : string) : string :=
  (Py.split_once "/"
     (let '(h, t) := Py.split_once ":" remote_fork in default h t)).1.

(** Files written: path and content. *)
Definition ev_written (ev : event) : option (string * string) :=
  match ev with
  | Ev (WriteFile path content) _ => Some (path, content)
  | _ => None
  end.

Definition writes (evs : list event) : list (string * string) :=
  omap ev_written evs.

(** Files renamed: source and destination. *)
Definition ev_renamed (ev : event) : option (string * string) :=
  match ev with
  | Ev (Rename src dst) _ => Some (src, dst)
  | _ => None
  end.

Definition renames (evs : list event) : list (string * string) :=
  omap ev_renamed evs.

(** The commands run through [util.run]: argument vector, environment
    entries and working directory. *)
Definition ev_command (ev : event)
    : option (list string * option (list (string * option string))
              * option string) :=
  match ev with
  | Ev (UtilRun argv env cwd) _ => Some (argv, env, cwd)
  | _ => None
  end.

Definition commands (evs : list event)
    : list (list string * option (list (string * option string))
            * option string) :=
  omap ev_command evs.

(** The names of the temporary files a run obtained. *)
Definition ev_temp (ev : event) : option string :=
  match ev with
  | Ev NamedTemporaryFile (Ok name) => Some name
  | _ => None
  end.

Definition temp_names (evs : list event) : list string := omap ev_temp evs.

(** The paths a run loaded as YAML. *)
Definition ev_loaded (ev : event) : option string :=
  match ev with
  | Ev (YamlLoad path) _ => Some path
  | _ => None
  end.

Definition loaded_paths (evs : list event) : list string :=
  omap ev_loaded evs.

(** The commit messages of a run. *)
Definition ev_commit_message (ev : event) : option string :=
  match ev with
  | Ev (IndexCommit message) _ => Some message
  | _ => None
  end.

Definition commit_messages (evs : list event) : list string :=
  omap ev_commit_message evs.

(** The pull-request message files of a run: the text written and the
    name of the file, when it was written. *)
Definition ev_message (ev : event) : option (string * option string) :=
  match ev with
  | Ev (WriteMessageFile content) (Ok name) => Some (content, Some name)
  | Ev (WriteMessageFile content) (Raise _) => Some (content, None)
  | _ => None
  end.

Definition messages (evs : list event) : list (string * option string) :=
  omap ev_message evs.

(** The remotes a run found configured, and the remotes it added. *)
Definition ev_remotes (ev : event) : option (list remote) :=
  match ev with
  | Ev RepoRemotes (Ok rs) => Some rs
  | _ => None
  end.

Definition remote_lists (evs : list event) : list (list remote) :=
  omap ev_remotes evs.

Definition ev_added (ev : event) : option (string * string) :=
  match ev with
  | Ev (RepoCreateRemote name url) _ => Some (name, url)
  | _ => None
  end.

Definition remotes_added (evs : list event) : list (string * string) :=
  omap ev_added evs.




(** The calls of a run that come before its first listing of open pull
    requests; all of them when it lists none. *)
Fixpoint before_listing (evs : list event) : list event :=
  match evs with
  | [] => []
  | ev :: evs' =>
      if bool_decide (ev_kind ev = KListPRs) then []
      else ev :: before_listing evs'
  end.

(** The name of the active branch, as a run read it. *)
Definition ev_active (ev : event) : option string :=
  match ev with
  | Ev RepoActiveBranch (Ok name) => Some name
  | _ => None
  end.

Definition active_branches (evs : list event) : list string :=
  omap ev_active evs.

(** The names of the branches, as a run read them. *)
Definition ev_branches (ev : event) : option (list string) :=
  match ev with
  | Ev RepoBranches (Ok names) => Some names
  | _ => None
  end.

Definition branch_lists (evs : list event) : list (list string) :=
  omap ev_branches evs.

(** The [git checkout] commands of a run that returned, with and without
    [-b]: their argument vectors. *)
Definition ev_checkout (ev : event) : option (list string) :=
  match ev with
  | Ev (UtilRun argv _ _) (Ok _) =>
      if bool_decide (command_kind argv ∈ [KCheckout; KCreateBranch])
      then Some argv else None
  | _ => None
  end.

Definition checkouts (evs : list event) : list (list string) :=
  omap ev_checkout evs.

(** The remotes [create_remote] returned. *)
Definition ev_created (ev : event) : option remote :=
  match ev with
  | Ev (RepoCreateRemote _ _) (Ok r) => Some r
  | _ => None
  end.

Definition remotes_created (evs : list event) : list remote :=
  omap ev_created evs.

(** What [yaml.load] returned in a run. *)
Definition ev_yaml (ev : event) : option yaml :=
  match ev with
  | Ev (YamlLoad _) (Ok data) => Some data
  | _ => None
  end.

Definition yaml_values (evs : list event) : list yaml := omap ev_yaml evs.

(** What [git log] printed in a run. *)
Definition revisions_printed (evs : list event) : list string :=
  omap (λ ev, if bool_decide (ev_kind ev = KGitLog) then ev_output ev
              else None) evs.

(** The argument vector of the [git log] query of [last_commit]. *)
Definition git_log_command : list string :=
  ["git"; "log"; "-n"; "1";
   "--pretty=format:" +:+ String dquote ("%h" +:+ String dquote "");
   "components/jupyter-web-app"].

Section Contracts.

Context {Ext : Type} `{Collab : Collaborators Ext}.

(** Every call [m] makes, from any state, satisfies [P]. *)
Definition events_satisfy {A : Type} (P : event → Prop) (m : M Ext A) : Prop :=
  ∀ s, Forall P (emitted (m s)).

(** What the publishing phase of [all] may do, for the revision, the
    remote and the image it is given: each command and each file
    operation with its arguments. *)
Definition publish_step (lc : string) (remote_repo : remote) (image : string)
    (ev : event) : Prop :=
  match ev with
  | Ev (UtilRun argv env cwd) _ =>
      env = None ∧ cwd = Some _root_dir
      ∧ match command_kind argv with
        | KCheckout => argv = ["git"; "checkout"; "update_jupyter_" +:+ lc]
        | KCreateBranch =>
            argv = ["git"; "checkout"; "-b"; "update_jupyter_" +:+ lc]
        | KPush => argv = ["git"; "push"; "-f"; remote_name remote_repo]
        | KCreatePR =>
            ∃ name, argv = ["hub"; "pull-request"; "-f";
                            "--base=kubeflow:master"; "-F"; name]
        | KListPRs =>
            argv = ["hub"; "pr"; "list"; "--format=%U;%t" +:+ String LF ""]
        | KGitLog => argv = git_log_command
        | _ => False
        end
  | Ev (ReadFile path) _ => path = prototype_path
  | Ev (WriteFile path _) _ => path = prototype_path +:+ ".tmp"
  | Ev (Rename src dst) _ =>
      src = prototype_path +:+ ".tmp" ∧ dst = prototype_path
  | Ev RepoActiveBranch _ => True
  | Ev RepoBranches _ => True
  | Ev (IndexAdd paths) _ => paths = [prototype_path]
  | Ev (IndexCommit message) _ =>
      message = "Update the jupyter web app image to " +:+ image
  | Ev (WriteMessageFile content) _ => content = _pr_title (Some lc)
  | _ => False
  end.

(** [m] runs [git log] at most once: not at all from a state that holds a
    revision, and, when every revision printed is not empty, at most once,
    a run of it leaving a revision held unless [m] raised. *)
Definition asks_once {A : Type} (m : M Ext A) : Prop :=
  ∀ s,
    let o := m s in
    (Py.truthy (_last_commit s) = true →
     count KGitLog (emitted o) = 0 ∧ _last_commit (final o) = _last_commit s)
    ∧ (Forall (λ out, Py.strip dquote out ≠ "")
              (revisions_printed (emitted o)) →
       count KGitLog (emitted o) ≤ 1
       ∧ (count KGitLog (emitted o) = 1 →
          (∃ e, result o = Raise e)
          ∨ Py.truthy (_last_commit (final o)) = true)
       ∧ (count KGitLog (emitted o) = 0 →
          _last_commit (final o) = _last_commit s)).

End Contracts.

(** ** Strings *)

Section Strings.

Lemma app_cons (c : ascii) (s t : string) :
  String c s +:+ t = String c (s +:+ t).
Proof. reflexivity. Qed.

Lemma app_empty_l (s : string) : "" +:+ s = s.
Proof. reflexivity. Qed.

Lemma app_empty_r (s : string) : s +:+ "" = s.
Proof. induction s as [|c s IH]; [done|]. by rewrite app_cons, IH. Qed.

Lemma app_assoc_str (s t u : string) : (s +:+ t) +:+ u = s +:+ (t +:+ u).
Proof. induction s as [|c s IH]; [done|]. by rewrite !app_cons, IH. Qed.

Lemma no_space_app (s t : string) :
  Py.no_space (s +:+ t) = Py.no_space s && Py.no_space t.
Proof.
  induction s as [|c s IH]; [done|].
  rewrite app_cons. simpl. rewrite IH. by destruct (Py.isspace c).
Qed.

Lemma is_token_no_space (t : string) : Py.is_token t = true → Py.no_space t = true.
Proof. by destruct t. Qed.

Lemma is_token_flush (t : string) : Py.is_token t = true → Py.flush t = [t].
Proof. by destruct t. Qed.

Lemma flush_tokens (cur : string) :
  Py.no_space cur = true → Forall (λ t, Py.is_token t = true) (Py.flush cur).
Proof. destruct cur; [constructor|]. intros H. by repeat constructor. Qed.

(** Every match of the scanner is a non-empty run without whitespace. *)
Lemma findall_go_tokens (s cur : string) :
  Py.no_space cur = true →
  Forall (λ t, Py.is_token t = true) (Py.findall_go cur s).
Proof.
  revert cur. induction s as [|c s IH]; intros cur Hcur; simpl.
  - by apply flush_tokens.
  - destruct (Py.isspace c) eqn:Hc.
    + apply Forall_app. split; [by apply flush_tokens | by apply IH].
    + apply IH. rewrite no_space_app, Hcur. simpl. by rewrite Hc.
Qed.

Lemma findall_S_tokens (s : string) :
  Forall (λ t, Py.is_token t = true) (Py.findall_S s).
Proof. by apply findall_go_tokens. Qed.

(** The scanner runs through a whitespace-free prefix without a match
    ending. *)
Lemma findall_go_prefix (t cur s : string) :
  Py.no_space t = true →
  Py.findall_go cur (t +:+ s) = Py.findall_go (cur +:+ t) s.
Proof.
  revert cur. induction t as [|c t IH]; intros cur Ht.
  - by rewrite app_empty_l, app_empty_r.
  - simpl in Ht. apply andb_true_iff in Ht as [Hc Ht].
    rewrite app_cons. simpl. apply negb_true_iff in Hc. rewrite Hc.
    rewrite IH by done. by rewrite app_assoc_str.
Qed.

Lemma join_cons2 (sep t u : string) (l : list string) :
  Py.join sep (t :: u :: l) = t +:+ sep +:+ Py.join sep (u :: l).
Proof. reflexivity. Qed.

(** Joining tokens with single spaces and scanning again gives the tokens
    back. *)
Lemma findall_S_join (ts : list string) :
  Forall (λ t, Py.is_token t = true) ts →
  Py.findall_S (Py.join " " ts) = ts.
Proof.
  induction ts as [|t ts IH]; intros Hts; [done|].
  apply Forall_cons in Hts as [Ht Hts].
  destruct ts as [|u ts].
  - unfold Py.findall_S. change (Py.join " " [t]) with t.
    rewrite <- (app_empty_r t) at 1.
    rewrite findall_go_prefix by by apply is_token_no_space.
    simpl. by apply is_token_flush.
  - rewrite join_cons2. unfold Py.findall_S.
    rewrite findall_go_prefix by by apply is_token_no_space.
    rewrite app_empty_l. change (" " +:+ ?x) with (String " " x).
    simpl. rewrite is_token_flush by done. simpl. f_equal. by apply IH.
Qed.

(** Splitting at line feeds and joining with line feeds is the identity. *)
Lemma split_nonempty (sep : ascii) (s : string) : Py.split sep s ≠ [].
Proof.
  destruct s as [|c s]; simpl; [done|].
  destruct (decide (c = sep)); [done|]. by destruct (Py.split sep s).
Qed.

Lemma join_split (sep : ascii) (s : string) :
  Py.join (String sep "") (Py.split sep s) = s.
Proof.
  induction s as [|c s IH]; [done|]. simpl.
  destruct (decide (c = sep)) as [->|Hne].
  - pose proof (split_nonempty sep s) as Hn.
    destruct (Py.split sep s) as [|u l] eqn:E; [done|].
    rewrite join_cons2, app_empty_l. rewrite IH. reflexivity.
  - pose proof (split_nonempty sep s) as Hn.
    destruct (Py.split sep s) as [|u l] eqn:E; [done|].
    destruct l as [|v l].
    + change (Py.join (String sep "") [String c u]) with (String c u).
      change (Py.join (String sep "") [u]) with u in IH. by rewrite IH.
    + rewrite join_cons2. rewrite join_cons2 in IH.
      rewrite app_cons. by rewrite IH.
Qed.

End Strings.

(** ** The parameter patcher: what the loop computes *)

Section Patcher.

Implicit Types (values old : gmap string string) (lines : list string).

Lemma replace_body_step values lines old (i : nat) (line : string) :
  lines !! i = Some line →
  replace_body values (lines, old) i
  = (<[i := patch values line]> lines, record values old line).
Proof.
  intros Hi. unfold replace_body, patch, record, line_step. rewrite Hi.
  pose proof (list_insert_id lines i line Hi) as Hid.
  repeat case_match; simplify_eq; by rewrite ?Hid.
Qed.

Lemma replace_upto_spec (n : nat) lines values :
  n ≤ length lines →
  replace_upto n lines values
  = ((patch values <$> take n lines) ++ drop n lines,
     foldl (record values) ∅ (take n lines)).
Proof.
  unfold replace_upto. induction n as [|n IH]; intros Hn.
  - by rewrite take_0, drop_0.
  - destruct (lookup_lt_is_Some_2 lines n) as [line Hline]; [lia|].
    rewrite seq_S, foldl_app, IH by lia. cbn [foldl Nat.add].
    assert (length (patch values <$> take n lines) = n) as Hlen.
    { rewrite length_fmap, length_take. lia. }
    erewrite replace_body_step; last first.
    { rewrite lookup_app_r by lia. rewrite Hlen, Nat.sub_diag.
      rewrite lookup_drop, Nat.add_0_r. exact Hline. }
    rewrite (take_S_r _ _ _ Hline), fmap_app, foldl_app. cbn [foldl fmap list_fmap].
    f_equal. rewrite (drop_S _ _ _ Hline).
    rewrite insert_app_r_alt by lia. rewrite Hlen, Nat.sub_diag. simpl.
    by rewrite <- app_assoc.
Qed.

Lemma replace_parameters_spec lines values :
  _replace_parameters lines values
  = (patch values <$> lines, foldl (record values) ∅ lines).
Proof.
  unfold _replace_parameters. rewrite replace_upto_spec by lia.
  by rewrite firstn_all, drop_all, app_nil_r.
Qed.

Lemma line_step_empty (line : string) : line_step ∅ line = None.
Proof. unfold line_step. repeat case_match; simplify_map_eq; done. Qed.

Lemma line_step_declares values (line : string) r :
  line_step values line = Some r →
  declares r.2.1 line ∧ is_Some (values !! r.2.1).
Proof.
  unfold line_step, declares. intros H.
  repeat case_match; simplify_eq; simpl.
  repeat match goal with
         | H : bool_decide _ = false |- _ => apply bool_decide_eq_false in H
         | H : _ || _ = false |- _ => apply orb_false_iff in H as [??]
         end.
  repeat split; try lia; eauto.
  - by destruct (decide (Py.findall_S line !! 0 = Some "//")); [|tauto].
  - by destruct (decide (Py.findall_S line !! 1 = Some "@optionalParam")); [|tauto].
Qed.

Lemma line_step_match values (line : string) (name v p4 : string) :
  declares name line → values !! name = Some v →
  Py.findall_S line !! 4 = Some p4 →
  line_step values line
  = Some (Py.join " " (<[4 := v]> (Py.findall_S line)), (name, p4)).
Proof.
  unfold declares, line_step. intros (Hlen & H0 & H1 & H2) Hv H4.
  rewrite bool_decide_eq_false_2 by lia.
  rewrite H0, H1, H2, H4, Hv. reflexivity.
Qed.

Lemma line_step_skip values (line : string) :
  (length (Py.findall_S line) < 5
   ∨ Py.findall_S line !! 0 ≠ Some "//"
   ∨ Py.findall_S line !! 1 ≠ Some "@optionalParam") →
  line_step values line = None.
Proof.
  unfold line_step. intros [H|[H|H]].
  - by rewrite bool_decide_eq_true_2.
  - case_bool_decide; [done|]. by rewrite (bool_decide_eq_true_2 _ H).
  - case_bool_decide; [done|]. rewrite (bool_decide_eq_true_2 _ H).
    by rewrite orb_true_r.
Qed.

End Patcher.

(** ** The parameter patcher: properties *)

Section PatcherProperties.

Implicit Types (values old : gmap string string) (lines : list string).

Lemma record_other values old (line name : string) :
  ¬ declares name line → record values old line !! name = old !! name.
Proof.
  intros Hnot. unfold record.
  destruct (line_step values line) as [[line' [k v]]|] eqn:E; [|done].
  apply line_step_declares in E as [Hd _]. simpl in Hd.
  rewrite lookup_insert_ne; [done|]. by intros ->.
Qed.

Lemma foldl_record_other values old lines (name : string) :
  Forall (λ l, ¬ declares name l) lines →
  foldl (record values) old lines !! name = old !! name.
Proof.
  revert old. induction lines as [|l lines IH]; intros old Hall; [done|].
  apply Forall_cons in Hall as [Hl Hall]. simpl.
  rewrite IH by done. by apply record_other.
Qed.

Lemma patch_declared values (line name v : string) :
  declares name line → values !! name = Some v →
  patch values line = Py.join " " (<[4 := v]> (Py.findall_S line)).
Proof.
  intros Hd Hv. pose proof Hd as (Hlen & _).
  destruct (lookup_lt_is_Some_2 (Py.findall_S line) 4) as [p4 H4]; [lia|].
  unfold patch. by rewrite (line_step_match _ _ _ _ _ Hd Hv H4).
Qed.

Lemma patch_idempotent values (line : string) :
  (∀ k v, values !! k = Some v → Py.is_token v = true) →
  patch values (patch values line) = patch values line.
Proof.
  intros Htok. unfold patch at 2 3.
  destruct (line_step values line) as [[line' [k p4]]|] eqn:E.
  - pose proof (line_step_declares _ _ _ E) as [Hd [v Hv]]. simpl in Hd, Hv.
    pose proof Hd as (Hlen & H0 & H1 & H2).
    destruct (lookup_lt_is_Some_2 (Py.findall_S line) 4) as [q4 H4]; [lia|].
    rewrite (line_step_match _ _ _ _ _ Hd Hv H4) in E. simplify_eq.
    set (pieces := <[4 := v]> (Py.findall_S line)).
    assert (Py.findall_S (Py.join " " pieces) = pieces) as Hscan.
    { apply findall_S_join. apply Forall_insert; [apply findall_S_tokens|].
      by apply (Htok k). }
    assert (declares k (Py.join " " pieces)) as Hd'.
    { unfold declares. rewrite Hscan. unfold pieces.
      rewrite length_insert, !list_lookup_insert_ne by lia. done. }
    rewrite (patch_declared _ _ _ _ Hd' Hv), Hscan. unfold pieces.
    by rewrite list_insert_insert_eq.
  - unfold patch. by rewrite E.
Qed.

Lemma record_declared values old (line name v p4 : string) :
  declares name line → values !! name = Some v →
  Py.findall_S line !! 4 = Some p4 →
  record values old line !! name = Some p4.
Proof.
  intros Hd Hv H4. unfold record.
  rewrite (line_step_match _ _ _ _ _ Hd Hv H4). apply lookup_insert_eq.
Qed.

Lemma foldl_record_recorded values old lines (name v q0 : string) :
  values !! name = Some v → old !! name = Some q0 →
  ∃ q, foldl (record values) old lines !! name = Some q
    ∧ ((q = q0 ∧ Forall (λ l, ¬ declares name l) lines)
       ∨ ∃ (k : nat) (l : string),
           lines !! k = Some l ∧ declares name l
           ∧ Py.findall_S l !! 4 = Some q).
Proof.
  intros Hv. revert old q0.
  induction lines as [|l lines IH]; intros old q0 Hold; simpl.
  - exists q0. split; [done|]. by left.
  - destruct (decide (declares name l)) as [Hd|Hd].
    + pose proof Hd as (Hlen & _).
      destruct (lookup_lt_is_Some_2 (Py.findall_S l) 4) as [p4 H4]; [lia|].
      destruct (IH _ p4 (record_declared _ old _ _ _ _ Hd Hv H4))
        as (q & Hq & [[-> _]|(k & l' & Hk & Hd' & H4')]).
      * exists p4. split; [done|]. right. by exists 0, l.
      * exists q. split; [done|]. right. by exists (S k), l'.
    + destruct (IH (record values old l) q0) as (q & Hq & Hcase).
      { by rewrite record_other. }
      exists q. split; [done|].
      destruct Hcase as [[-> Hall]|(k & l' & Hk & Hd' & H4')].
      * left. split; [done|]. by apply Forall_cons.
      * right. by exists (S k), l'.
Qed.

(** C5: a line with fewer than five tokens, or whose first two tokens are
    not [//] and [@optionalParam], is left as it is; for a line of that
    shape whose third token is a key of the mapping, the iteration records
    the fifth token as the key's previous value, and the map returned has
    the key, with the fifth token of that line or of a later line declaring
    the same key, and with the fifth token of that line when no later line
    declares the key; the desired value is put in the fifth place and the
    line is rewritten as its tokens joined by single spaces. *)
Theorem replace_parameters_per_line lines values (i : nat) (line : string) :
  lines !! i = Some line →
  let pieces := Py.findall_S line in
  ((length pieces < 5 ∨ pieces !! 0 ≠ Some "//"
    ∨ pieces !! 1 ≠ Some "@optionalParam") →
   (_replace_parameters lines values).1 !! i = Some line)
  ∧ (∀ name p4 v : string,
       5 ≤ length pieces → pieces !! 0 = Some "//" →
       pieces !! 1 = Some "@optionalParam" → pieces !! 2 = Some name →
       pieces !! 4 = Some p4 → values !! name = Some v →
       (replace_upto (S i) lines values).2 !! name = Some p4
       ∧ (∃ (k : nat) (l q : string),
            i ≤ k ∧ lines !! k = Some l ∧ declares name l
            ∧ Py.findall_S l !! 4 = Some q
            ∧ (_replace_parameters lines values).2 !! name = Some q)
       ∧ ((∀ (j : nat) (l : string),
             i < j → lines !! j = Some l → ¬ declares name l) →
          (_replace_parameters lines values).2 !! name = Some p4)
       ∧ <[4 := v]> pieces !! 4 = Some v
       ∧ (_replace_parameters lines values).1 !! i
         = Some (Py.join " " (<[4 := v]> pieces))).
Proof.
  intros Hi pieces. rewrite replace_parameters_spec. simpl. split.
  - intros Hskip. rewrite list_lookup_fmap, Hi. simpl.
    unfold patch. by rewrite line_step_skip.
  - intros name p4 v Hlen H0 H1 H2 H4 Hv.
    assert (declares name line) as Hd by done.
    assert (foldl (record values) ∅ lines
            = foldl (record values)
                (record values (foldl (record values) ∅ (take i lines)) line)
                (drop (S i) lines)) as Hfold.
    { rewrite <- (take_drop_middle _ _ _ Hi) at 1. by rewrite foldl_app. }
    destruct (foldl_record_recorded values
                (record values (foldl (record values) ∅ (take i lines)) line)
                (drop (S i) lines) name v p4 Hv)
      as (q & Hq & Hcase).
    { by apply (record_declared _ _ _ _ v). }
    rewrite <- Hfold in Hq.
    split; [|split; [|split; [|split]]].
    + rewrite replace_upto_spec by (apply lookup_lt_Some in Hi; lia). simpl.
      rewrite (take_S_r _ _ _ Hi), foldl_app. simpl.
      by apply (record_declared _ _ _ _ v).
    + destruct Hcase as [[-> _]|(k & l & Hk & Hd' & H4')].
      * by exists i, line, p4.
      * rewrite lookup_drop in Hk. exists (S i + k), l, q.
        split; [lia|done].
    + intros Hlast. destruct Hcase as [[-> _]|(k & l & Hk & Hd' & _)]; [done|].
      rewrite lookup_drop in Hk. exfalso.
      apply (Hlast (S i + k) l); [lia|done|done].
    + apply list_lookup_insert_eq. fold pieces. lia.
    + rewrite list_lookup_fmap, Hi. simpl.
      by rewrite (patch_declared _ _ _ _ Hd Hv).
Qed.

Lemma replace_parameters_per_line_witness :
  (_replace_parameters
     ["plain text"; "// @optionalParam  image string gcr.io/old  An image"]
     {[ "image" := "gcr.io/new" ]}).1 !! 0 = Some "plain text"
  ∧ (_replace_parameters
       ["plain text"; "// @optionalParam  image string gcr.io/old  An image"]
       {[ "image" := "gcr.io/new" ]}).2 !! "image" = Some "gcr.io/old"
  ∧ (_replace_parameters
       ["plain text"; "// @optionalParam  image string gcr.io/old  An image"]
       {[ "image" := "gcr.io/new" ]}).1 !! 1
    = Some "// @optionalParam image string gcr.io/new An image".
Proof.
  set (lines := ["plain text";
                 "// @optionalParam  image string gcr.io/old  An image"]).
  set (values := {[ "image" := "gcr.io/new" ]} : gmap string string).
  split.
  - apply (replace_parameters_per_line lines values 0 "plain text" eq_refl).
    left. vm_compute. lia.
  - destruct (replace_parameters_per_line lines values 1
                "// @optionalParam  image string gcr.io/old  An image" eq_refl)
      as [_ H].
    destruct (H "image" "gcr.io/old" "gcr.io/new") as (_ & _ & H2 & _ & H3);
      [vm_compute; lia | reflexivity | reflexivity | reflexivity
      | reflexivity | reflexivity |].
    split; [|exact H3].
    apply H2. intros [|[|j]] l Hlt Hj; [lia | lia | discriminate].
Defined.

(** C9: with an empty value mapping the lines, and so the text, come back
    unchanged, and the previous-value map is empty. *)
Theorem replace_parameters_empty lines (text : string) :
  _replace_parameters lines ∅ = (lines, ∅)
  ∧ Py.join (String LF "") (_replace_parameters (Py.split LF text) ∅).1 = text
  ∧ (_replace_parameters (Py.split LF text) ∅).2 = ∅.
Proof.
  assert (∀ ls, _replace_parameters ls ∅ = (ls, ∅)) as H.
  { intros ls. rewrite replace_parameters_spec. f_equal.
    - rewrite <- (list_fmap_id ls) at 2. apply list_fmap_ext.
      intros ? l _. unfold patch. by rewrite line_step_empty.
    - induction ls as [|l ls IH]; [done|]. simpl.
      unfold record at 2. by rewrite line_step_empty. }
  rewrite !H. simpl. by rewrite join_split.
Qed.

(** C10: when several lines declare the same parameter of the mapping,
    each of them is rewritten, and the previous-value map returned holds
    the fifth token of the last of them. *)
Theorem replace_parameters_last_wins lines values (name v : string) :
  values !! name = Some v →
  (∀ (i : nat) (line : string),
     lines !! i = Some line → declares name line →
     (_replace_parameters lines values).1 !! i
     = Some (Py.join " " (<[4 := v]> (Py.findall_S line))))
  ∧ (∀ (i : nat) (line p4 : string),
       lines !! i = Some line → declares name line →
       Py.findall_S line !! 4 = Some p4 →
       (∀ (j : nat) (l : string),
          i < j → lines !! j = Some l → ¬ declares name l) →
       (_replace_parameters lines values).2 !! name = Some p4).
Proof.
  intros Hv. rewrite replace_parameters_spec. simpl. split.
  - intros i line Hi Hd. rewrite list_lookup_fmap, Hi. simpl.
    by rewrite (patch_declared _ _ _ _ Hd Hv).
  - intros i line p4 Hi Hd H4 Hlast.
    rewrite <- (take_drop_middle _ _ _ Hi), foldl_app. simpl.
    rewrite foldl_record_other.
    + unfold record. rewrite (line_step_match _ _ _ _ _ Hd Hv H4).
      by rewrite lookup_insert_eq.
    + apply Forall_lookup. intros j l Hj.
      rewrite lookup_drop in Hj. apply (Hlast (S i + j)); [lia|done].
Qed.

Lemma replace_parameters_last_wins_witness :
  (_replace_parameters
     ["// @optionalParam image string first x";
      "// @optionalParam image string second y"]
     {[ "image" := "new" ]}).1 !! 0
  = Some "// @optionalParam image string new x"
  ∧ (_replace_parameters
       ["// @optionalParam image string first x";
        "// @optionalParam image string second y"]
       {[ "image" := "new" ]}).2 !! "image" = Some "second".
Proof.
  set (lines := ["// @optionalParam image string first x";
                 "// @optionalParam image string second y"]).
  set (values := {[ "image" := "new" ]} : gmap string string).
  destruct (replace_parameters_last_wins lines values "image" "new" eq_refl)
    as [Hall Hlast].
  split.
  - apply (Hall 0 "// @optionalParam image string first x" eq_refl).
    vm_compute. repeat split; lia.
  - apply (Hlast 1 "// @optionalParam image string second y" "second" eq_refl).
    + vm_compute. repeat split; lia.
    + reflexivity.
    + intros [|[|j]] l Hlt Hj; [lia | lia | discriminate].
Defined.

(** C8, as the code has it: when every value of the mapping is a single
    token (not empty, no whitespace), patching twice with the mapping gives
    the lines that patching once gives. *)
Theorem replace_parameters_idempotent lines values :
  (∀ k v : string, values !! k = Some v → Py.is_token v = true) →
  (_replace_parameters (_replace_parameters lines values).1 values).1
  = (_replace_parameters lines values).1.
Proof.
  intros Htok. rewrite !replace_parameters_spec. simpl.
  rewrite <- list_fmap_compose. apply list_fmap_ext.
  intros ? l _. simpl. by apply patch_idempotent.
Qed.

Lemma replace_parameters_idempotent_witness :
  (_replace_parameters
     (_replace_parameters ["// @optionalParam image string  old  desc"]
        {[ "image" := "gcr.io/p/app:abc123" ]}).1
     {[ "image" := "gcr.io/p/app:abc123" ]}).1
  = (_replace_parameters ["// @optionalParam image string  old  desc"]
       {[ "image" := "gcr.io/p/app:abc123" ]}).1.
Proof.
  apply replace_parameters_idempotent.
  intros k v Hkv. apply lookup_singleton_Some in Hkv as [_ <-]. reflexivity.
Defined.

(** C8 as stated fails: a value with a space in it is scanned as two
    tokens the second time, and the second patch differs from the first. *)
Lemma replace_parameters_not_idempotent :
  ¬ (∀ lines values,
       (_replace_parameters (_replace_parameters lines values).1 values).1
       = (_replace_parameters lines values).1).
Proof.
  intros H.
  specialize (H ["// @optionalParam image string old desc"]
                {[ "image" := "a b" ]}).
  vm_compute in H. discriminate H.
Qed.

End PatcherProperties.

(** ** Reasoning about runs *)

Section Runs.

Context {Ext : Type} `{Collab : Collaborators Ext}.

Implicit Types (s : state Ext).

Lemma wp_bind {A B : Type} (m : M Ext A) (k : A → M Ext B) s Q :
  wp m s (λ r s' evs,
    match r with
    | Ok a => wp (k a) s' (λ r' s'' evs', Q r' s'' (evs ++ evs'))
    | Raise e => Q (Raise e) s' evs
    end) →
  wp (m ≫= k) s Q.
Proof. unfold wp, mbind, M_bind, bind. by destruct (result (m s)). Qed.

Lemma wp_call {T : Type} (a : action T) s Q :
  (∀ r e, perform T a (ext s) = (r, e) →
          Q r (State e (_last_commit s)) [Ev a r]) →
  wp (call a) s Q.
Proof.
  unfold wp, call. intros H.
  destruct (perform T a (ext s)) as [r e]. by apply H.
Qed.

Lemma wp_ret {A : Type} (a : A) s Q : Q (Ok a) s [] → wp (ret a) s Q.
Proof. done. Qed.

Lemma wp_raise {A : Type} (e : exn) s (Q : Res A → state Ext → list event → Prop) :
  Q (Raise e) s [] → wp (raise e) s Q.
Proof. done. Qed.

Lemma wp_get s Q : Q (Ok (_last_commit s)) s [] → wp get_last_commit s Q.
Proof. done. Qed.

Lemma wp_set v s Q :
  Q (Ok tt) (State (ext s) v) [] → wp (set_last_commit v) s Q.
Proof. done. Qed.

Lemma wp_try {A : Type} (m : M Ext A) s Q :
  wp m s (λ r s' evs, Q (Ok r) s' evs) → wp (try m) s Q.
Proof. done. Qed.

Lemma wp_getitem d key s Q :
  (∀ v, d !! key = Some v → Q (Ok v) s []) →
  (d !! key = None → Q (Raise (KeyError key)) s []) →
  wp (getitem d key) s Q.
Proof. unfold getitem. intros H1 H2. destruct (d !! key); [by apply H1|by apply H2]. Qed.

Lemma wp_mono {A : Type} (m : M Ext A) s (Q1 Q2 : Res A → state Ext → list event → Prop) :
  wp m s Q1 → (∀ r s' evs, Q1 r s' evs → Q2 r s' evs) → wp m s Q2.
Proof. unfold wp. auto. Qed.

Lemma wp_conj {A : Type} (m : M Ext A) s
    (Q1 Q2 : Res A → state Ext → list event → Prop) :
  wp m s Q1 → wp m s Q2 → wp m s (λ r s' evs, Q1 r s' evs ∧ Q2 r s' evs).
Proof. by split. Qed.

Lemma wp_result {A : Type} (m : M Ext A) s :
  wp m s (λ r s' evs, r = result (m s)).
Proof. done. Qed.

Lemma path_join_truthy (a b : string) :
  Py.truthy (Some b) = true → Py.truthy (Some (path_join a b)) = true.
Proof.
  unfold path_join. destruct b as [|c b]; [done|]. intros _.
  repeat case_match; try done; by destruct a.
Qed.

Lemma prototype_path_truthy : Py.truthy (Some prototype_path) = true.
Proof. by apply path_join_truthy. Qed.

End Runs.

Ltac wp_step :=
  lazymatch goal with
  | |- wp (_ ≫= _) _ _ => apply wp_bind
  | |- wp (call _) _ _ =>
      let r := fresh "r" in let e := fresh "e" in let E := fresh "E" in
      apply wp_call; cbn [ext _last_commit]; intros r e E; destruct r
  | |- wp (ret _) _ _ => apply wp_ret
  | |- wp (mret _) _ _ => apply wp_ret
  | |- wp (raise _) _ _ => apply wp_raise
  | |- wp get_last_commit _ _ => apply wp_get
  | |- wp (set_last_commit _) _ _ => apply wp_set
  | |- wp (try _) _ _ => apply wp_try
  | |- wp (getitem _ _) _ _ => apply wp_getitem; [intros ? ?|intros ?]
  | |- wp (if ?b then _ else _) _ _ =>
      lazymatch b with
      | context [Py.truthy (Some prototype_path)] =>
          rewrite prototype_path_truthy
      | context [Py.truthy None] => change (Py.truthy None) with false
      | _ => destruct b eqn:?
      end
  | |- wp (match ?x with _ => _ end) _ _ => destruct x eqn:?
  end; cbv beta iota zeta; cbn [ext _last_commit negb].

(** Membership of a kind in an explicit list of kinds. *)
Ltac kinds_of_run :=
  cbn [kinds fmap list_fmap app ev_kind kind_of command_kind];
  repeat first [ apply Forall_nil_2 | apply Forall_cons_2 ];
  cbv beta; try (apply (bool_decide_unpack _); vm_compute; exact I).

(** A decidable fact about explicit kinds. *)
Ltac decide_kind := apply (bool_decide_unpack _); vm_compute; exact I.

(** ** The set-up phase *)

Section Setup.

Context {Ext : Type} `{Collab : Collaborators Ext}.

Lemma last_commit_spec (s : state Ext) :
  wp last_commit s (λ r s' evs,
    Forall (λ k, k = KGitLog) (kinds evs)
    ∧ (∀ v, r = Ok v → _last_commit s' = Some v)
    ∧ (∀ c, _last_commit s = Some c → Py.truthy (Some c) = true →
            r = Ok c ∧ s' = s ∧ evs = [])
    ∧ (∀ e, r = Raise e → succeeded evs = false)).
Proof.
  unfold last_commit. repeat wp_step.
  all: repeat split; kinds_of_run; intros; simplify_eq/=; try done.
  all: try (destruct (_last_commit s) as [[|??]|]; simplify_eq/=; done).
Qed.

Lemma all_setup_spec (rf : string) (agh : bool) (s : state Ext) :
  wp (all_setup rf agh) s (λ r s' evs,
    Forall (λ k, k ∈ preliminary ++ [KRemotes; KAddRemote]) (kinds evs)
    ∧ (∀ lc remote, r = Ok (lc, remote) → _last_commit s' = Some lc)
    ∧ (Py.startswith "git@github.com" rf = false →
       (∃ e, r = Raise e)
       ∧ Forall (λ k, k ∈ preliminary) (kinds evs)
       ∧ (agh = false →
          Forall (λ k, k ∈ [KOpenRepo; KActivate; KGitLog]) (kinds evs))
       ∧ (succeeded evs = true → env_set evs = true →
          r = Raise (ValueError "Remote fork currently only supports ssh")))).
Proof.
  unfold all_setup, last_commit, _find_remote_repo.
  destruct (Py.startswith "git@github.com" rf) eqn:Hrf; cbv beta iota;
    cbn [negb].
  all: repeat wp_step.
  all: split; [kinds_of_run|].
  all: split; [intros; simplify_eq/=;
               try (destruct (_last_commit s) as [[|??]|]; simplify_eq/=); done|].
  all: intros ?; try discriminate.
  all: split; [eauto|].
  all: split; [kinds_of_run|].
  all: split; [intros; simplify_eq/=; kinds_of_run|].
  all: cbn; intros; simplify_eq/=; done.
Qed.


End Setup.

(** ** The image resolver *)

Section Resolver.

Context {Ext : Type} `{Collab : Collaborators Ext}.

Ltac fetch_leaf :=
  repeat match goal with
         | H : _ ∈ [] |- _ => by apply not_elem_of_nil in H
         | H : _ ∈ [_] |- _ => apply list_elem_of_singleton in H
         | H : negb _ = true |- _ => apply negb_true_iff in H
         | H : negb _ = false |- _ => apply negb_false_iff in H
         | H : bool_decide _ = true |- _ => apply bool_decide_eq_true_1 in H
         | H : bool_decide _ = false |- _ => apply bool_decide_eq_false_1 in H
         | H : 0 < 0 |- _ => by apply Nat.lt_irrefl in H
         | _ => progress simplify_eq/=
         end.

Lemma all_resolve_image_spec (bp rp : string) (s : state Ext) :
  wp (all_resolve_image bp rp) s (λ r s' evs,
    Forall (λ k, k ∈ [KGitLog; KDockerResolve; KFetchManifest; KTempFile;
                      KBuild; KLoadYaml]) (kinds evs)
    ∧ (∀ c, _last_commit s = Some c → Py.truthy (Some c) = true →
            _last_commit s' = Some c)
    ∧ (∀ built, r = Ok built →
         resolved evs = Some built ∧ is_Some (_last_commit s'))
    ∧ (0 < count KBuild evs →
       ∃ image, fetches evs = [(image, Some (V2DiagnosticException 404))])
    ∧ (∀ image x, (image, x) ∈ fetches evs →
       fetches evs = [(image, x)]
       ∧ (∃ rev, _last_commit s' = Some rev
                 ∧ image = ("gcr.io/" +:+ rp +:+ "/jupyter-web-app")
                           +:+ ":" +:+ rev)
       ∧ (x = None → r = Ok image ∧ count KBuild evs = 0)
       ∧ (∀ e, x = Some e → e ≠ V2DiagnosticException 404 →
               r = Raise e ∧ count KBuild evs = 0)
       ∧ (x = Some (V2DiagnosticException 404) →
          count KTempFile evs = 1
          ∧ count KBuild evs ≤ 1
          ∧ (succeeded (filter (λ ev, ev_kind ev = KTempFile) evs) = true →
             count KBuild evs = 1)
          ∧ (∀ built, r = Ok built →
               count KBuild evs = 1
               ∧ ∃ doc, documents evs = [doc]
                        ∧ doc !! "image" = Some built)))).
Proof.
  unfold all_resolve_image, build_image, subscript, last_commit.
  repeat wp_step.
  all: split; [kinds_of_run|].
  all: split; [intros; fetch_leaf;
               try (destruct (_last_commit s) as [[|??]|]; simplify_eq/=);
               done|].
  all: cbn [fetches documents resolved omap list_omap app ev_fetched
            ev_raised ev_document fmap option_fmap option_map].
  all: split; [solve [intros; fetch_leaf;
                      try (destruct (_last_commit s) as [[|??]|];
                           simplify_eq/=);
                      try (split; [done|by eexists])]|].
  all: split; [vm_compute count; intros; fetch_leaf; eauto|].
  all: intros image x Hin; fetch_leaf.
  all: split; [done|].
  all: split; [eexists; split; [|reflexivity];
               try (destruct (_last_commit s) as [[|??]|]; simplify_eq/=);
               done|].
  all: split; [intros; fetch_leaf; done|].
  all: split; [intros; fetch_leaf; done|].
  all: intros; fetch_leaf.
  all: vm_compute count.
  all: split; [done|]; split; [lia|].
  all: split; [vm_compute; intros; fetch_leaf; done|].
  all: intros; fetch_leaf; eauto.
Qed.

End Resolver.

(** ** The publisher *)

Section Publisher.

Context {Ext : Type} `{Collab : Collaborators Ext}.

Lemma parse_prs_lookup (lines : list string) (acc prs : gmap string string)
    (title : string) :
  parse_prs acc lines = Ok prs →
  is_Some (prs !! title)
  ↔ is_Some (acc !! title)
    ∨ existsb (λ l, bool_decide ((Py.split_once ";" l).2 = Some title)) lines
      = true.
Proof.
  revert acc. induction lines as [|l lines IH]; intros acc Hparse; simpl in *.
  - simplify_eq. split; [by left|]. by intros [?|?].
  - destruct (Py.split_once ";" l) as [n [t|]] eqn:El; [|done].
    rewrite (IH _ Hparse). simpl. rewrite orb_true_iff.
    rewrite bool_decide_eq_true. destruct (decide (t = title)) as [->|Hne].
    + rewrite lookup_insert_eq. split; [intros _; right; by left|].
      intros _. left. by eexists.
    + rewrite lookup_insert_ne by done. split.
      * intros [?|?]; [by left|right; by right].
      * intros [?|[?|?]]; [by left|by simplify_eq|by right].
Qed.

Lemma parse_prs_listed (output title : string) (prs : gmap string string) :
  parse_prs ∅ (Py.splitlines output) = Ok prs →
  bool_decide (is_Some (prs !! title)) = listed title output.
Proof.
  intros Hparse. pose proof (parse_prs_lookup _ _ _ title Hparse) as H.
  unfold listed. apply eq_true_iff_eq. rewrite bool_decide_eq_true, H.
  rewrite lookup_empty. split; [intros [[? ?]|?]; done|by right].
Qed.

Ltac read_leaf :=
  cbn [reads omap list_omap app ev_read];
  let text := fresh "text" in let Hin := fresh "Hin" in
  let Hprev := fresh "Hprev" in
  intros text Hin Hprev;
  first
    [ by apply not_elem_of_nil in Hin
    | apply list_elem_of_singleton in Hin; subst text;
      unfold previous_image in Hprev;
      match goal with
      | H : _replace_parameters _ _ = _ |- _ => rewrite H in Hprev
      end;
      cbn [snd] in Hprev;
      match goal with
      | H : ?g !! "image" = _ |- _ =>
          tryif constr_eq H Hprev then fail else rewrite H in Hprev
      end;
      simplify_eq;
      first [ by split
            | match goal with
              | H : bool_decide (?x = ?x) = false |- _ =>
                  by rewrite bool_decide_eq_true_2 in H
              end ] ].

Lemma update_prototype_spec (image : string) s :
  wp (update_prototype image) s (λ r s' evs,
    (∀ text, text ∈ reads evs → previous_image text image = Some image →
       r = Ok None ∧ kinds evs = [KReadFile])
    ∧ (∀ text, text ∈ reads evs → previous_image text image = None →
         r = Raise (KeyError "image") ∧ kinds evs = [KReadFile])).
Proof.
  unfold update_prototype. repeat wp_step.
  all: split; read_leaf.
Qed.

Ltac listing_leaf :=
  let c0 := fresh "c0" in let Hc0 := fresh "Hc0" in
  let Hinv := fresh "Hinv" in let out := fresh "out" in
  let rev := fresh "rev" in let Hout := fresh "Hout" in
  let Hrev := fresh "Hrev" in let Hl := fresh "Hl" in
  intros c0 Hc0 Hinv out rev Hout Hrev Hl;
  first
    [ by kinds_of_run
    | exfalso;
      vm_compute listings in Hout;
      apply list_elem_of_singleton in Hout; subst out;
      match goal with
      | Hp : parse_prs _ _ = Ok _, Hb : bool_decide (is_Some _) = false |- _ =>
          rewrite (parse_prs_listed _ _ _ Hp) in Hb;
          try match goal with
              | Ht : negb (Py.truthy (Some _)) = false |- _ =>
                  apply negb_false_iff in Ht; specialize (Hinv Ht)
              end;
          rewrite ?Hc0 in Hb; rewrite ?Hc0 in Hrev; cbn [default from_option id] in Hb;
          simplify_eq; congruence
      end ].

Lemma all_publish_spec (lc : string) (remote_repo : remote) (image : string)
    (s : state Ext) :
  wp (all_publish lc remote_repo image) s (λ r s' evs,
    Forall (λ k, k ∈ [KReadFile; KWriteFile; KRename; KActiveBranch;
                      KBranches; KCheckout; KCreateBranch; KGitLog; KListPRs;
                      KIndexAdd; KCommit; KPush; KMessageFile; KCreatePR])
           (kinds evs)
    ∧ (∀ text, text ∈ reads evs → previous_image text image = Some image →
         r = Ok tt ∧ kinds evs = [KReadFile])
    ∧ (∀ text, text ∈ reads evs → previous_image text image = None →
         r = Raise (KeyError "image") ∧ kinds evs = [KReadFile])
    ∧ (∀ c0, _last_commit s = Some c0 →
         (Py.truthy (Some lc) = true → c0 = lc) →
         ∀ out rev, out ∈ listings evs → _last_commit s' = Some rev →
           listed (_pr_title (Some rev)) out = true →
           Forall (λ k, k ∉ publishing) (kinds evs))).
Proof.
  unfold all_publish, update_prototype, _check_if_pr_exists,
    create_pull_request, last_commit.
  repeat wp_step.
  all: split; [kinds_of_run|].
  all: split; [read_leaf|].
  all: split; [read_leaf|].
  all: listing_leaf.
Qed.

Lemma all_publish_branch (lc : string) (remote_repo : remote) (image : string)
    (s : state Ext) :
  wp (all_publish lc remote_repo image) s (λ r s' evs,
    (∀ c, _last_commit s = Some c → Py.truthy (Some c) = true →
          _last_commit s' = Some c)
    ∧ (∀ out, out ∈ listings evs →
         ∃ active,
           active_branches (before_listing evs) = [active]
           ∧ (active = "update_jupyter_" +:+ lc → checkouts evs = [])
           ∧ (active ≠ "update_jupyter_" +:+ lc →
              ∃ existing,
                branch_lists (before_listing evs) = [existing]
                ∧ checkouts (before_listing evs)
                  = [if bool_decide ("update_jupyter_" +:+ lc ∈ existing)
                     then ["git"; "checkout"; "update_jupyter_" +:+ lc]
                     else ["git"; "checkout"; "-b";
                           "update_jupyter_" +:+ lc]]))).
Proof.
  unfold all_publish, update_prototype, _check_if_pr_exists,
    create_pull_request, last_commit.
  repeat wp_step.
  all: split;
    [intros c Hc Ht; cbn [_last_commit];
     first [ exact Hc
           | exfalso;
             match goal with
             | H : negb (Py.truthy (_last_commit _)) = true |- _ =>
                 rewrite Hc, Ht in H; discriminate H
             end ]|].
  all: intros out Hout; vm_compute listings in Hout.
  all: try (by apply not_elem_of_nil in Hout).
  all: eexists; split; [reflexivity|].
  all: repeat match goal with
              | H : bool_decide _ = true |- _ => apply bool_decide_eq_true_1 in H
              | H : bool_decide (_ ≠ _) = false |- _ =>
                  apply bool_decide_eq_false_1 in H
              end.
  all: split; [intros Heq; first [done | reflexivity]|].
  all: intros Hne; try done.
  all: eexists; split; [reflexivity|].
  all: first [ rewrite bool_decide_eq_true_2 by done
             | match goal with
               | H : bool_decide (_ ∈ _) = false |- _ => rewrite H
               end ];
       reflexivity.
Qed.

End Publisher.

(** ** Events of composed runs *)

Section Events.

Implicit Types (evs : list event) (ks : list kind).

Lemma kinds_app evs1 evs2 : kinds (evs1 ++ evs2) = kinds evs1 ++ kinds evs2.
Proof. apply fmap_app. Qed.

Lemma fetches_app evs1 evs2 :
  fetches (evs1 ++ evs2) = fetches evs1 ++ fetches evs2.
Proof. apply omap_app. Qed.

Lemma documents_app evs1 evs2 :
  documents (evs1 ++ evs2) = documents evs1 ++ documents evs2.
Proof. apply omap_app. Qed.

Lemma reads_app evs1 evs2 : reads (evs1 ++ evs2) = reads evs1 ++ reads evs2.
Proof. apply omap_app. Qed.

Lemma listings_app evs1 evs2 :
  listings (evs1 ++ evs2) = listings evs1 ++ listings evs2.
Proof. apply omap_app. Qed.

Lemma ev_fetched_kind (ev : event) (image : string) :
  ev_fetched ev = Some image → ev_kind ev = KFetchManifest.
Proof. destruct ev as [T a r]. by destruct a. Qed.

Lemma ev_document_kind (ev : event) (doc : gmap string string) :
  ev_document ev = Some doc → ev_kind ev = KLoadYaml.
Proof. destruct ev as [T a r]. by destruct a. Qed.

Lemma ev_read_kind (ev : event) (text : string) :
  ev_read ev = Some text → ev_kind ev = KReadFile.
Proof. destruct ev as [T a r]. by destruct a. Qed.

(** A run that makes no call of a kind shows nothing of that kind. *)
Lemma fetches_absent evs ks :
  Forall (λ k, k ∈ ks) (kinds evs) → KFetchManifest ∉ ks → fetches evs = [].
Proof.
  intros Hall Hk. induction evs as [|ev evs IH]; [done|].
  apply Forall_cons in Hall as [Hev Hall]. unfold fetches. simpl.
  destruct (ev_fetched ev) as [image|] eqn:E; [|by apply IH].
  apply ev_fetched_kind in E. congruence.
Qed.

Lemma documents_absent evs ks :
  Forall (λ k, k ∈ ks) (kinds evs) → KLoadYaml ∉ ks → documents evs = [].
Proof.
  intros Hall Hk. induction evs as [|ev evs IH]; [done|].
  apply Forall_cons in Hall as [Hev Hall]. unfold documents. simpl.
  destruct (ev_document ev) as [doc|] eqn:E; [|by apply IH].
  apply ev_document_kind in E. congruence.
Qed.

Lemma reads_absent evs ks :
  Forall (λ k, k ∈ ks) (kinds evs) → KReadFile ∉ ks → reads evs = [].
Proof.
  intros Hall Hk. induction evs as [|ev evs IH]; [done|].
  apply Forall_cons in Hall as [Hev Hall]. unfold reads. simpl.
  destruct (ev_read ev) as [text|] eqn:E; [|by apply IH].
  apply ev_read_kind in E. congruence.
Qed.

Lemma listings_absent evs ks :
  Forall (λ k, k ∈ ks) (kinds evs) → KListPRs ∉ ks → listings evs = [].
Proof.
  intros Hall Hk. induction evs as [|ev evs IH]; [done|].
  apply Forall_cons in Hall as [Hev Hall]. unfold listings. simpl.
  case_bool_decide; [congruence|]. by apply IH.
Qed.

Lemma kinds_absent evs ks (k : kind) :
  Forall (λ k', k' ∈ ks) (kinds evs) → k ∉ ks → k ∉ kinds evs.
Proof.
  intros Hall Hk Hin. rewrite Forall_forall in Hall. by apply Hk, Hall.
Qed.

Lemma count_zero (k : kind) evs : count k evs = 0 ↔ k ∉ kinds evs.
Proof.
  unfold count. induction (kinds evs) as [|k' l IH]; simpl.
  - split; [intros _; apply not_elem_of_nil|done].
  - rewrite filter_cons. rewrite not_elem_of_cons. case_decide; simpl.
    + split; [done|]. intros [? _]. congruence.
    + rewrite IH. split; [intros ?; split; [congruence|done]|by intros [_ ?]].
Qed.

(** A run that makes no call of the kinds an observation looks at shows
    nothing to it. *)
Lemma omap_absent {A : Type} (f : event → option A) (look : list kind)
    evs ks :
  (∀ ev a, f ev = Some a → ev_kind ev ∈ look) →
  Forall (λ k, k ∈ ks) (kinds evs) → Forall (λ k, k ∉ ks) look →
  omap f evs = [].
Proof.
  intros Hf Hall Hlook. induction evs as [|ev evs IH]; [done|].
  apply Forall_cons in Hall as [Hev Hall]. simpl.
  destruct (f ev) as [a|] eqn:E; [|by apply IH].
  apply Hf in E. rewrite Forall_forall in Hlook. by destruct (Hlook _ E).
Qed.

Lemma ev_active_kind (ev : event) (name : string) :
  ev_active ev = Some name → ev_kind ev ∈ [KActiveBranch].
Proof.
  destruct ev as [T a r]. destruct a; try done. intros _. apply list_elem_of_here.
Qed.

Lemma ev_branches_kind (ev : event) (names : list string) :
  ev_branches ev = Some names → ev_kind ev ∈ [KBranches].
Proof.
  destruct ev as [T a r]. destruct a; try done. intros _. apply list_elem_of_here.
Qed.

Lemma ev_checkout_kind (ev : event) (argv : list string) :
  ev_checkout ev = Some argv → ev_kind ev ∈ [KCheckout; KCreateBranch].
Proof.
  destruct ev as [T a r]. destruct a; try done. destruct r; [|done]. simpl.
  by case_bool_decide.
Qed.

Lemma before_listing_app evs1 evs2 :
  KListPRs ∉ kinds evs1 →
  before_listing (evs1 ++ evs2) = evs1 ++ before_listing evs2.
Proof.
  induction evs1 as [|ev evs1 IH]; [done|]. simpl.
  rewrite not_elem_of_cons. intros [Hev Hno].
  rewrite bool_decide_eq_false_2 by done. by rewrite IH.
Qed.

End Events.

(** ** The pipeline *)

Section Pipeline.

Context {Ext : Type} `{Collab : Collaborators Ext}.

Implicit Types (s : state Ext).

(** The three phases of [all], one after the other. *)
Lemma wp_all (bp rp rf : string) (agh : bool) s Q :
  wp (all_setup rf agh) s (λ r1 s1 evs1,
    match r1 with
    | Raise e => Q (Raise e) s1 evs1
    | Ok (lc, remote_repo) =>
        wp (all_resolve_image bp rp) s1 (λ r2 s2 evs2,
          match r2 with
          | Raise e => Q (Raise e) s2 (evs1 ++ evs2)
          | Ok image =>
              wp (all_publish lc remote_repo image) s2 (λ r3 s3 evs3,
                Q r3 s3 (evs1 ++ evs2 ++ evs3))
          end)
    end) →
  wp (all bp rp rf agh) s Q.
Proof.
  intros H. unfold all. apply wp_bind. eapply wp_mono; [exact H|].
  intros [[lc remote_repo]|e] s1 evs1 H1; [|done]. cbv beta iota.
  apply wp_bind. eapply wp_mono; [exact H1|].
  by intros [image|e] s2 evs2 H2.
Qed.

Lemma wp_outcome {A : Type} (m : M Ext A) s (Q : outcome Ext A → Prop) :
  wp m s (λ r s' evs, Q (Outcome r s' evs)) → Q (m s).
Proof. unfold wp. by destruct (m s). Qed.


Lemma resolved_middle (evs1 evs2 evs3 : list event) :
  fetches evs1 = [] → documents evs1 = [] →
  fetches evs3 = [] → documents evs3 = [] →
  resolved (evs1 ++ evs2 ++ evs3) = resolved evs2.
Proof.
  intros H1 H2 H3 H4. unfold resolved.
  by rewrite !fetches_app, !documents_app, H1, H2, H3, H4, !app_nil_r.
Qed.

(** C3: a manifest fetch that fails with anything but status 404 ends the
    run with that exception and without a build; a build is only made
    after a fetch that failed with status 404. *)
Theorem all_fetch_failure (bp rp rf : string) (agh : bool) s :
  let o := all bp rp rf agh s in
  (∀ image e, (image, Some e) ∈ fetches (emitted o) →
     e ≠ V2DiagnosticException 404 →
     result o = Raise e ∧ KBuild ∉ kinds (emitted o))
  ∧ (KBuild ∈ kinds (emitted o) →
     ∃ image, (image, Some (V2DiagnosticException 404)) ∈ fetches (emitted o)).
Proof.
  intros o. pattern o. apply wp_outcome, wp_all. cbn [result final emitted].
  eapply wp_mono; [apply all_setup_spec|].
  intros r1 s1 evs1 (Hk1 & _ & _).
  assert (fetches evs1 = []) as Hf1
    by (apply (fetches_absent _ _ Hk1); decide_kind).
  assert (KBuild ∉ kinds evs1) as Hb1
    by (apply (kinds_absent _ _ _ Hk1); decide_kind).
  destruct r1 as [[lc remote_repo]|e1].
  2:{ rewrite Hf1. split; [by intros ?? ?%not_elem_of_nil|done]. }
  eapply wp_mono; [apply all_resolve_image_spec|].
  intros r2 s2 evs2 (_ & _ & _ & Hbuild & Hfetch).
  assert (∀ evs3, fetches evs3 = [] → KBuild ∉ kinds evs3 →
    (∀ image e, (image, Some e) ∈ fetches (evs1 ++ evs2 ++ evs3) →
       e ≠ V2DiagnosticException 404 →
       r2 = Raise e ∧ KBuild ∉ kinds (evs1 ++ evs2 ++ evs3))
    ∧ (KBuild ∈ kinds (evs1 ++ evs2 ++ evs3) →
       ∃ image, (image, Some (V2DiagnosticException 404))
                ∈ fetches (evs1 ++ evs2 ++ evs3))) as Hall.
  { intros evs3 Hf3 Hb3. rewrite !fetches_app, Hf1, Hf3, app_nil_r. simpl.
    rewrite !kinds_app. split.
    - intros image e Hin Hne.
      destruct (Hfetch _ _ Hin) as (_ & _ & _ & Hother & _).
      destruct (Hother e eq_refl Hne) as [-> H0]. split; [done|].
      apply count_zero in H0. rewrite !not_elem_of_app. done.
    - rewrite !elem_of_app. intros [?|[Hin|?]]; [done| |done].
      destruct (Nat.eq_dec (count KBuild evs2) 0) as [H0|H0].
      { by apply count_zero in H0. }
      destruct Hbuild as [image Himage]; [lia|].
      exists image. rewrite Himage. apply list_elem_of_here. }
  destruct r2 as [image|e2].
  - eapply wp_mono; [apply all_publish_spec|].
    intros r3 s3 evs3 (Hk3 & _).
    destruct (Hall evs3) as [Hfail Hbuilt].
    { apply (fetches_absent _ _ Hk3); decide_kind. }
    { apply (kinds_absent _ _ _ Hk3); decide_kind. }
    split; [|exact Hbuilt].
    intros image' e Hin Hne. by destruct (Hfail _ _ Hin Hne).
  - destruct (Hall []) as [Hfail Hbuilt]; [done|apply not_elem_of_nil|].
    rewrite app_nil_r in Hfail, Hbuilt. split; [|exact Hbuilt].
    intros image e Hin Hne. destruct (Hfail _ _ Hin Hne) as [Heq Hno].
    by injection Heq as ->.
Qed.

(** C1: when the previous value the patcher records for [image] is the
    new image, [update_prototype] returns [None] after reading the
    prototype and nothing else; and a run of [all] whose resolved image
    (the reference found in the registry, or the [image] field of the build
    document) is that previous value ends there: nothing is written,
    committed or pushed, and no pull request is listed or opened. *)
Theorem all_skips_current_image (bp rp rf : string) (agh : bool)
    (image : string) s :
  (∀ text,
     text ∈ reads (emitted (update_prototype image s)) →
     previous_image text image = Some image →
     result (update_prototype image s) = Ok None
     ∧ kinds (emitted (update_prototype image s)) = [KReadFile])
  ∧ (let o := all bp rp rf agh s in
     ∀ text,
       resolved (emitted o) = Some image →
       text ∈ reads (emitted o) →
       previous_image text image = Some image →
       result o = Ok tt
       ∧ ∀ k, k ∈ [KWriteFile; KRename; KIndexAdd; KCommit; KPush; KListPRs;
                   KMessageFile; KCreatePR] → k ∉ kinds (emitted o)).
Proof.
  split.
  { pattern (update_prototype image s). apply wp_outcome.
    cbn [result final emitted].
    eapply wp_mono; [apply update_prototype_spec|].
    by intros r s' evs [H _]. }
  intros o. pattern o. apply wp_outcome, wp_all. cbn [result final emitted].
  eapply wp_mono; [apply all_setup_spec|].
  intros r1 s1 evs1 (Hk1 & _ & _).
  assert (reads evs1 = []) as Hr1
    by (apply (reads_absent _ _ Hk1); decide_kind).
  destruct r1 as [[lc remote_repo]|e1].
  2:{ intros text _. rewrite Hr1. by intros ?%not_elem_of_nil. }
  eapply wp_mono; [apply all_resolve_image_spec|].
  intros r2 s2 evs2 (Hk2 & _ & Hres & _).
  assert (reads evs2 = []) as Hr2
    by (apply (reads_absent _ _ Hk2); decide_kind).
  destruct r2 as [image2|e2].
  2:{ intros text _. rewrite reads_app, Hr1, Hr2. by intros ?%not_elem_of_nil. }
  eapply wp_mono; [apply all_publish_spec|].
  intros r3 s3 evs3 (Hk3 & Hsame & _) text.
  rewrite resolved_middle.
  2:{ apply (fetches_absent _ _ Hk1); decide_kind. }
  2:{ apply (documents_absent _ _ Hk1); decide_kind. }
  2:{ apply (fetches_absent _ _ Hk3); decide_kind. }
  2:{ apply (documents_absent _ _ Hk3); decide_kind. }
  destruct (Hres image2 eq_refl) as [-> _]. intros [= <-].
  rewrite !reads_app, Hr1, Hr2. simpl. intros Hin Hprev.
  destruct (Hsame _ Hin Hprev) as [-> Hkinds]. split; [done|].
  intros k Hk. rewrite !kinds_app, Hkinds, !not_elem_of_app.
  revert Hk. rewrite !elem_of_cons, elem_of_nil. intros Hk.
  repeat (destruct Hk as [->|Hk];
          [split; [apply (kinds_absent _ _ _ Hk1); decide_kind|];
           split; [apply (kinds_absent _ _ _ Hk2); decide_kind|];
           decide_kind|]).
  done.
Qed.

(** C2, as the code has it: when the listing of open pull requests has a
    record whose title is the title built from the revision [rev] the
    updater holds in [_last_commit], nothing is staged, committed or pushed
    and no pull request is opened.  The switch of branch is not skipped: it
    comes before the listing.  With [lc] the revision the set-up read
    (which is [rev] unless it is empty), the run has read the active
    branch before it lists; when that is not [update_jupyter_<lc>] it has
    also read the branches and run [git checkout update_jupyter_<lc>] if
    the branch is among them and [git checkout -b update_jupyter_<lc>] if
    not; when it is, the run makes no checkout. *)
Theorem all_skips_existing_pr (bp rp rf : string) (agh : bool) s :
  let o := all bp rp rf agh s in
  ∀ out rev,
    out ∈ listings (emitted o) →
    _last_commit (final o) = Some rev →
    listed (_pr_title (Some rev)) out = true →
    (∀ k, k ∈ publishing → k ∉ kinds (emitted o))
    ∧ ∃ lc remote_repo active,
        result (all_setup rf agh s) = Ok (lc, remote_repo)
        ∧ (lc ≠ "" → rev = lc)
        ∧ active_branches (before_listing (emitted o)) = [active]
        ∧ (active = "update_jupyter_" +:+ lc → checkouts (emitted o) = [])
        ∧ (active ≠ "update_jupyter_" +:+ lc →
           ∃ existing,
             branch_lists (before_listing (emitted o)) = [existing]
             ∧ checkouts (before_listing (emitted o))
               = [if bool_decide ("update_jupyter_" +:+ lc ∈ existing)
                  then ["git"; "checkout"; "update_jupyter_" +:+ lc]
                  else ["git"; "checkout"; "-b"; "update_jupyter_" +:+ lc]]).
Proof.
  intros o. pattern o. apply wp_outcome, wp_all. cbn [result final emitted].
  eapply wp_mono; [apply wp_conj; [apply all_setup_spec|apply wp_result]|].
  intros r1 s1 evs1 [(Hk1 & Hc1 & _) Hr1].
  assert (listings evs1 = []) as Hl1
    by (apply (listings_absent _ _ Hk1); decide_kind).
  destruct r1 as [[lc remote_repo]|e1].
  2:{ intros out rev. rewrite Hl1. by intros ?%not_elem_of_nil. }
  eapply wp_mono; [apply all_resolve_image_spec|].
  intros r2 s2 evs2 (Hk2 & Hc2 & Hres & _).
  assert (listings evs2 = []) as Hl2
    by (apply (listings_absent _ _ Hk2); decide_kind).
  destruct r2 as [image|e2].
  2:{ intros out rev. rewrite listings_app, Hl1, Hl2.
      by intros ?%not_elem_of_nil. }
  eapply wp_mono;
    [apply wp_conj; [apply all_publish_spec|apply all_publish_branch]|].
  intros r3 s3 evs3 [(Hk3 & _ & _ & Hpr) (Hc3 & Hbranch)] out rev.
  rewrite !listings_app, Hl1, Hl2. simpl. intros Hout Hrev Hlisted.
  destruct (Hres image eq_refl) as [_ [c0 Hc0]].
  assert (Py.truthy (Some lc) = true → c0 = lc) as Hinv.
  { intros Ht. specialize (Hc2 lc (Hc1 _ _ eq_refl) Ht). congruence. }
  split.
  { intros k Hk.
    specialize (Hpr c0 Hc0 Hinv out rev Hout Hrev Hlisted).
    rewrite Forall_forall in Hpr.
    rewrite !kinds_app, !not_elem_of_app. split; [|split].
    - revert Hk. unfold publishing. rewrite !elem_of_cons, elem_of_nil.
      intros Hk.
      repeat (destruct Hk as [->|Hk];
              [apply (kinds_absent _ _ _ Hk1); decide_kind|]).
      done.
    - revert Hk. unfold publishing. rewrite !elem_of_cons, elem_of_nil.
      intros Hk.
      repeat (destruct Hk as [->|Hk];
              [apply (kinds_absent _ _ _ Hk2); decide_kind|]).
      done.
    - intros Hin. by apply (Hpr k Hin). }
  destruct (Hbranch out Hout) as (active & Hactive & Hsame & Hother).
  exists lc, remote_repo, active. split; [done|].
  assert (KListPRs ∉ kinds evs1) as Hn1
    by (apply (kinds_absent _ _ _ Hk1); decide_kind).
  assert (KListPRs ∉ kinds evs2) as Hn2
    by (apply (kinds_absent _ _ _ Hk2); decide_kind).
  rewrite !before_listing_app by done.
  unfold active_branches, branch_lists, checkouts. rewrite !omap_app.
  rewrite (omap_absent ev_active _ evs1 _ ev_active_kind Hk1) by kinds_of_run.
  rewrite (omap_absent ev_active _ evs2 _ ev_active_kind Hk2) by kinds_of_run.
  rewrite (omap_absent ev_branches _ evs1 _ ev_branches_kind Hk1)
    by kinds_of_run.
  rewrite (omap_absent ev_branches _ evs2 _ ev_branches_kind Hk2)
    by kinds_of_run.
  rewrite (omap_absent ev_checkout _ evs1 _ ev_checkout_kind Hk1)
    by kinds_of_run.
  rewrite (omap_absent ev_checkout _ evs2 _ ev_checkout_kind Hk2)
    by kinds_of_run.
  cbn [app]. split; [|done].
  intros Hlc. assert (Py.truthy (Some lc) = true) as Ht by by destruct lc.
  pose proof (Hc3 lc (Hc2 lc (Hc1 _ _ eq_refl) Ht) Ht). congruence.
Qed.

(** C4: when the fetch of the manifest of
    [gcr.io/<project>/jupyter-web-app:<revision>] fails with status 404,
    [build_image] is entered once, the build command is run once, and the
    image the resolver returns is the [image] field of the document the
    build wrote; when the manifest is found nothing is built and the
    resolver returns the reference itself.  What the resolver returns is
    the image [all] goes on with. *)
Theorem resolver_builds_once (bp rp rf : string) (agh : bool) s :
  (let o := all_resolve_image bp rp s in
   ∀ image x, (image, x) ∈ fetches (emitted o) →
     fetches (emitted o) = [(image, x)]
     ∧ (∃ rev, _last_commit (final o) = Some rev
               ∧ image = ("gcr.io/" +:+ rp +:+ "/jupyter-web-app")
                         +:+ ":" +:+ rev)
     ∧ (x = Some (V2DiagnosticException 404) →
        count KTempFile (emitted o) = 1
        ∧ count KBuild (emitted o) ≤ 1
        ∧ (succeeded (filter (λ ev, ev_kind ev = KTempFile) (emitted o))
           = true → count KBuild (emitted o) = 1)
        ∧ (∀ built, result o = Ok built →
             count KBuild (emitted o) = 1
             ∧ ∃ doc, documents (emitted o) = [doc]
                      ∧ doc !! "image" = Some built))
     ∧ (x = None → result o = Ok image ∧ count KBuild (emitted o) = 0))
  ∧ (∀ lc remote_repo image,
       let o1 := all_setup rf agh s in
       let o2 := all_resolve_image bp rp (final o1) in
       let o3 := all_publish lc remote_repo image (final o2) in
       result o1 = Ok (lc, remote_repo) → result o2 = Ok image →
       result (all bp rp rf agh s) = result o3
       ∧ emitted (all bp rp rf agh s)
         = emitted o1 ++ emitted o2 ++ emitted o3).
Proof.
  split.
  - intros o. pattern o. apply wp_outcome. cbn [result final emitted].
    eapply wp_mono; [apply all_resolve_image_spec|].
    intros r s' evs (_ & _ & _ & _ & Hfetch) image x Hin.
    destruct (Hfetch _ _ Hin) as (H1 & H2 & H3 & _ & H4). done.
  - intros lc remote_repo image o1 o2 o3 H1 H2. subst o1 o2 o3.
    unfold all, mbind, M_bind, bind. rewrite H1. cbn. rewrite H2. done.
Qed.

(** C6: when no line of the prototype declares the parameter [image],
    the patcher returns a previous-value map without the key [image], and
    [update_prototype], which reads [old_values["image"]], raises
    [KeyError] having only read the file. *)
Theorem update_prototype_missing_parameter (image : string) s :
  (∀ (lines : list string) (values : gmap string string),
     (∀ line, line ∈ lines → ¬ declares "image" line) →
     ∃ new_lines old,
       _replace_parameters lines values = (new_lines, old)
       ∧ old !! "image" = None)
  ∧ (let o := update_prototype image s in
     ∀ text,
       text ∈ reads (emitted o) →
       (∀ line, line ∈ Py.split LF text → ¬ declares "image" line) →
       result o = Raise (KeyError "image")
       ∧ kinds (emitted o) = [KReadFile]).
Proof.
  assert (∀ (lines : list string) (values : gmap string string),
            (∀ line, line ∈ lines → ¬ declares "image" line) →
            (_replace_parameters lines values).2 !! "image" = None) as Hnone.
  { intros lines values Hno. rewrite replace_parameters_spec. simpl.
    rewrite foldl_record_other; [apply lookup_empty|].
    by apply Forall_forall. }
  split.
  - intros lines values Hno. specialize (Hnone lines values Hno).
    destruct (_replace_parameters lines values) as [new_lines old].
    by exists new_lines, old.
  - intros o. pattern o. apply wp_outcome. cbn [result final emitted].
    eapply wp_mono; [apply update_prototype_spec|].
    intros r s' evs [_ Hmiss] text Hin Hno.
    apply (Hmiss text Hin). by apply Hnone.
Qed.

End Pipeline.



Lemma all_skips_current_image_witness :
  result (all "kubeflow-ci" "proj" fork_ssh false (fresh current)) = Ok tt
  ∧ KCommit ∉ kinds (emitted
      (all "kubeflow-ci" "proj" fork_ssh false (fresh current))).
Proof.
  destruct (all_skips_current_image "kubeflow-ci" "proj" fork_ssh false
              "gcr.io/proj/jupyter-web-app:abc123" (fresh current))
    as [_ Hrun].
  destruct (Hrun (prototype_text current)) as [Hresult Hkinds].
  - reflexivity.
  - vm_compute. apply list_elem_of_here.
  - reflexivity.
  - split; [exact Hresult|]. apply Hkinds. decide_kind.
Defined.

Lemma all_skips_existing_pr_witness :
  (KCommit ∉ kinds (emitted
     (all "kubeflow-ci" "proj" fork_ssh false (fresh proposed))))
  ∧ (KCreatePR ∉ kinds (emitted
       (all "kubeflow-ci" "proj" fork_ssh false (fresh proposed))))
  ∧ checkouts (before_listing (emitted
      (all "kubeflow-ci" "proj" fork_ssh false (fresh proposed))))
    = [["git"; "checkout"; "-b"; "update_jupyter_abc123"]].
Proof.
  destruct (all_skips_existing_pr "kubeflow-ci" "proj" fork_ssh false
              (fresh proposed) (pr_listing proposed) "abc123")
    as (Hnone & lc & remote_repo & active & Hsetup & _ & Hactive & _ & Hswitch).
  - vm_compute. apply list_elem_of_here.
  - reflexivity.
  - reflexivity.
  - split; [apply Hnone; decide_kind|]. split; [apply Hnone; decide_kind|].
    vm_compute in Hsetup. injection Hsetup as <- _.
    vm_compute in Hactive. injection Hactive as <-.
    destruct Hswitch as (existing & Hexisting & Hcheckouts); [discriminate|].
    vm_compute in Hexisting. injection Hexisting as <-.
    rewrite Hcheckouts. reflexivity.
Defined.

(** C2 as stated fails: the branch for the revision is created although a
    pull request with the title for that revision is listed. *)
Lemma branch_created_despite_existing_pr :
  listed (_pr_title (Some "abc123")) (pr_listing proposed) = true
  ∧ pr_listing proposed
    ∈ listings (emitted
        (all "kubeflow-ci" "proj" fork_ssh false (fresh proposed)))
  ∧ KCreateBranch ∈ kinds (emitted
      (all "kubeflow-ci" "proj" fork_ssh false (fresh proposed))).
Proof.
  split; [reflexivity|]. split.
  - vm_compute. apply list_elem_of_here.
  - decide_kind.
Qed.

Lemma all_fetch_failure_witness :
  result (all "kubeflow-ci" "proj" fork_ssh false (fresh registry_down))
  = Raise (V2DiagnosticException 500)
  ∧ KBuild ∉ kinds (emitted
      (all "kubeflow-ci" "proj" fork_ssh false (fresh registry_down))).
Proof.
  destruct (all_fetch_failure "kubeflow-ci" "proj" fork_ssh false
              (fresh registry_down)) as [Hfail _].
  apply (Hfail "gcr.io/proj/jupyter-web-app:abc123").
  - vm_compute. apply list_elem_of_here.
  - discriminate.
Defined.

Lemma resolver_builds_once_witness :
  count KBuild (emitted (all_resolve_image "kubeflow-ci" "proj" (fresh usual)))
  = 1
  ∧ ∃ doc,
      documents (emitted
        (all_resolve_image "kubeflow-ci" "proj" (fresh usual))) = [doc]
      ∧ doc !! "image" = Some "gcr.io/proj/jupyter-web-app:abc123".
Proof.
  destruct (resolver_builds_once "kubeflow-ci" "proj" fork_ssh false
              (fresh usual)) as [Hresolve _].
  destruct (Hresolve "gcr.io/proj/jupyter-web-app:abc123"
              (Some (V2DiagnosticException 404)))
    as (_ & _ & Hbuild & _).
  - vm_compute. apply list_elem_of_here.
  - destruct (Hbuild eq_refl) as (_ & _ & _ & Hbuilt).
    apply (Hbuilt "gcr.io/proj/jupyter-web-app:abc123"). reflexivity.
Defined.

Lemma update_prototype_missing_parameter_witness :
  result (update_prototype "gcr.io/proj/jupyter-web-app:abc123"
            (fresh unparameterised))
  = Raise (KeyError "image").
Proof.
  destruct (update_prototype_missing_parameter
              "gcr.io/proj/jupyter-web-app:abc123" (fresh unparameterised))
    as [_ Hraise].
  apply (Hraise (prototype_text unparameterised)).
  - vm_compute. apply list_elem_of_here.
  - intros line Hin. vm_compute in Hin.
    apply list_elem_of_singleton in Hin. subst line.
    intros (_ & _ & _ & Hname). vm_compute in Hname. discriminate Hname.
Defined.

(** ** More on the parameter patcher *)

Section PatcherFrame.

Implicit Types (values old : gmap string string) (lines : list string).

Lemma line_step_None values (line : string) :
  line_step values line = None
  ↔ ∀ name, declares name line → values !! name = None.
Proof.
  split.
  - intros Hnone name Hd. destruct (values !! name) as [v|] eqn:Hv; [|done].
    pose proof Hd as (Hlen & _).
    destruct (lookup_lt_is_Some_2 (Py.findall_S line) 4) as [p4 H4]; [lia|].
    by rewrite (line_step_match _ _ _ _ _ Hd Hv H4) in Hnone.
  - intros Hall. destruct (line_step values line) as [r|] eqn:E; [|done].
    apply line_step_declares in E as [Hd [v Hv]].
    by rewrite (Hall _ Hd) in Hv.
Qed.

Lemma record_lookup values old (line k : string) :
  is_Some (record values old line !! k)
  ↔ is_Some (old !! k) ∨ (is_Some (values !! k) ∧ declares k line).
Proof.
  unfold record.
  destruct (line_step values line) as [[line' [name p4]]|] eqn:E.
  - pose proof (line_step_declares _ _ _ E) as [Hd Hv]. simpl in Hd, Hv.
    destruct (decide (name = k)) as [->|Hne].
    + rewrite lookup_insert_eq. split; [intros _; by right|by eexists].
    + rewrite lookup_insert_ne by done. split; [by left|].
      intros [?|[_ Hk]]; [done|].
      destruct Hd as (_ & _ & _ & H2), Hk as (_ & _ & _ & H2').
      congruence.
  - split; [by left|]. intros [?|[[v Hv] Hd]]; [done|].
    rewrite line_step_None in E. by rewrite (E _ Hd) in Hv.
Qed.

Lemma foldl_record_lookup values old lines (k : string) :
  is_Some (foldl (record values) old lines !! k)
  ↔ is_Some (old !! k)
    ∨ (is_Some (values !! k) ∧ ∃ line, line ∈ lines ∧ declares k line).
Proof.
  revert old. induction lines as [|l lines IH]; intros old; simpl.
  - split; [by left|]. intros [?|[_ (? & ?%not_elem_of_nil & _)]]; done.
  - rewrite IH, record_lookup. split.
    + intros [[?|[? ?]]|[? (line & ? & ?)]].
      * by left.
      * right. split; [done|]. exists l. split; [apply list_elem_of_here|done].
      * right. split; [done|]. exists line.
        split; [by apply list_elem_of_further|done].
    + intros [?|[Hv (line & Hin & Hd)]]; [by left; left|].
      apply elem_of_cons in Hin as [->|Hin].
      * left. by right.
      * right. split; [done|]. by exists line.
Qed.

(** The patcher keeps the number of lines, leaves alone every line that
    declares no parameter of the mapping, and returns a previous value for
    exactly the parameters of the mapping that some line declares. *)
Theorem replace_parameters_frame lines values :
  length (_replace_parameters lines values).1 = length lines
  ∧ (∀ (i : nat) (line : string),
       lines !! i = Some line →
       (∀ name, declares name line → values !! name = None) →
       (_replace_parameters lines values).1 !! i = Some line)
  ∧ (∀ k : string,
       is_Some ((_replace_parameters lines values).2 !! k)
       ↔ is_Some (values !! k) ∧ ∃ line, line ∈ lines ∧ declares k line).
Proof.
  rewrite replace_parameters_spec. simpl. split; [|split].
  - apply length_fmap.
  - intros i line Hi Hno. rewrite list_lookup_fmap, Hi. simpl.
    unfold patch. apply line_step_None in Hno. by rewrite Hno.
  - intros k. rewrite foldl_record_lookup, lookup_empty. split.
    + by intros [[? ?]|?].
    + by right.
Qed.

End PatcherFrame.

(** ** What the patcher writes *)

Section WrittenText.

Implicit Types (values old : gmap string string) (lines : list string).

Lemma contains_app (c : ascii) (s t : string) :
  contains c (s +:+ t) = contains c s || contains c t.
Proof.
  induction s as [|a s IH]; [done|].
  rewrite app_cons. simpl. rewrite IH. by rewrite orb_assoc.
Qed.

Lemma split_pieces (c : ascii) (s : string) :
  Forall (λ l, contains c l = false) (Py.split c s).
Proof.
  induction s as [|a s IH]; simpl; [by repeat constructor|].
  destruct (decide (a = c)) as [->|Hne]; [by constructor|].
  destruct (Py.split c s) as [|t ts]; simpl.
  - repeat constructor. simpl. by rewrite bool_decide_eq_false_2.
  - apply Forall_cons in IH as [Ht Hts]. constructor; [|done].
    simpl. by rewrite bool_decide_eq_false_2.
Qed.

Lemma split_piece (c : ascii) (l : string) :
  contains c l = false → Py.split c l = [l].
Proof.
  induction l as [|a l IH]; [done|]. simpl. intros H.
  apply orb_false_iff in H as [Ha Hl]. apply bool_decide_eq_false_1 in Ha.
  destruct (decide (a = c)); [done|]. by rewrite IH.
Qed.

Lemma split_app_sep (c : ascii) (l rest : string) :
  contains c l = false →
  Py.split c (l +:+ String c rest) = l :: Py.split c rest.
Proof.
  induction l as [|a l IH]; intros H.
  - rewrite app_empty_l. simpl. by destruct (decide (c = c)).
  - simpl in H. apply orb_false_iff in H as [Ha Hl].
    apply bool_decide_eq_false_1 in Ha. rewrite app_cons. simpl.
    destruct (decide (a = c)); [done|]. by rewrite IH.
Qed.

(** Joining lines that hold no separator and splitting again gives the
    lines back. *)
Lemma split_join (c : ascii) (ls : list string) :
  ls ≠ [] → Forall (λ l, contains c l = false) ls →
  Py.split c (Py.join (String c "") ls) = ls.
Proof.
  induction ls as [|l ls IH]; [done|]. intros _ Hall.
  apply Forall_cons in Hall as [Hl Hall]. destruct ls as [|l' ls].
  - by apply split_piece.
  - rewrite join_cons2. change (String c "" +:+ ?x) with (String c x).
    rewrite split_app_sep by done. f_equal. by apply IH.
Qed.

Lemma no_space_contains (c : ascii) (t : string) :
  Py.isspace c = true → Py.no_space t = true → contains c t = false.
Proof.
  intros Hc. induction t as [|a t IH]; [done|]. simpl.
  intros [Ha Ht]%andb_true_iff. rewrite IH by done.
  rewrite orb_false_r. apply bool_decide_eq_false_2. intros ->.
  by rewrite Hc in Ha.
Qed.

Lemma join_contains (c : ascii) (sep : string) (ts : list string) :
  contains c sep = false → Forall (λ t, contains c t = false) ts →
  contains c (Py.join sep ts) = false.
Proof.
  intros Hsep. induction ts as [|t ts IH]; [done|]. intros Hall.
  apply Forall_cons in Hall as [Ht Hts]. destruct ts as [|u ts]; [done|].
  rewrite join_cons2, !contains_app, Ht, Hsep. by apply IH.
Qed.

Lemma patch_line_feed values (line : string) :
  (∀ k v, values !! k = Some v → Py.is_token v = true) →
  contains LF line = false → contains LF (patch values line) = false.
Proof.
  intros Htok Hline. unfold patch.
  destruct (line_step values line) as [[line' [k p4]]|] eqn:E; [|done].
  pose proof (line_step_declares _ _ _ E) as [Hd [v Hv]]. simpl in Hd, Hv.
  pose proof Hd as (Hlen & _).
  destruct (lookup_lt_is_Some_2 (Py.findall_S line) 4) as [q4 H4]; [lia|].
  rewrite (line_step_match _ _ _ _ _ Hd Hv H4) in E. simplify_eq.
  apply join_contains; [done|].
  eapply Forall_impl;
    [apply Forall_insert; [apply findall_S_tokens|by apply (Htok k)]|].
  intros t Ht. apply no_space_contains; [done|by apply is_token_no_space].
Qed.

(** After patching, a line declares [name] exactly when it did before. *)
Lemma patch_declares values (line name : string) :
  (∀ k v, values !! k = Some v → Py.is_token v = true) →
  declares name (patch values line) ↔ declares name line.
Proof.
  intros Htok. unfold patch.
  destruct (line_step values line) as [[line' [k p4]]|] eqn:E; [|done].
  pose proof (line_step_declares _ _ _ E) as [Hd [v Hv]]. simpl in Hd, Hv.
  pose proof Hd as (Hlen & H0 & H1 & H2).
  destruct (lookup_lt_is_Some_2 (Py.findall_S line) 4) as [q4 H4]; [lia|].
  rewrite (line_step_match _ _ _ _ _ Hd Hv H4) in E. simplify_eq.
  unfold declares. rewrite findall_S_join.
  - by rewrite length_insert, !list_lookup_insert_ne by lia.
  - apply Forall_insert; [apply findall_S_tokens|by apply (Htok k)].
Qed.

Lemma patch_value values (line name v : string) :
  (∀ k v, values !! k = Some v → Py.is_token v = true) →
  declares name line → values !! name = Some v →
  Py.findall_S (patch values line) !! 4 = Some v.
Proof.
  intros Htok Hd Hv. rewrite (patch_declared _ _ _ _ Hd Hv).
  rewrite findall_S_join.
  - apply list_lookup_insert_eq. destruct Hd as [Hlen _]. lia.
  - apply Forall_insert; [apply findall_S_tokens|by apply (Htok name)].
Qed.

Lemma foldl_record_value values old lines (name v x : string) :
  values !! name = Some v →
  Forall (λ l, declares name l → Py.findall_S l !! 4 = Some x) lines →
  old !! name = Some x ∨ (∃ l, l ∈ lines ∧ declares name l) →
  foldl (record values) old lines !! name = Some x.
Proof.
  intros Hv. revert old. induction lines as [|l lines IH]; intros old Hall H.
  - destruct H as [?|(? & ?%not_elem_of_nil & _)]; done.
  - apply Forall_cons in Hall as [Hl Hall]. simpl. apply IH; [done|].
    destruct (decide (declares name l)) as [Hd|Hnd].
    + left. unfold record.
      rewrite (line_step_match _ _ _ _ _ Hd Hv (Hl Hd)).
      apply lookup_insert_eq.
    + rewrite record_other by done.
      destruct H as [?|(l' & Hin & Hd)]; [by left|].
      apply elem_of_cons in Hin as [->|Hin]; [done|]. right. by exists l'.
Qed.

(** The text made of the patched lines, patched again with the same
    image, records that image as the previous value. *)
Lemma patched_text_current (text image : string) :
  Py.is_token image = true →
  is_Some (previous_image text image) →
  previous_image
    (Py.join (String LF "")
       (_replace_parameters (Py.split LF text) {[ "image" := image ]}).1)
    image = Some image.
Proof.
  intros Himage Hprev. unfold previous_image in *.
  set (values := {[ "image" := image ]} : gmap string string) in *.
  assert (∀ k v, values !! k = Some v → Py.is_token v = true) as Htok.
  { intros k v [_ <-]%lookup_singleton_Some. done. }
  rewrite replace_parameters_spec in Hprev. cbn [snd] in Hprev.
  apply foldl_record_lookup in Hprev as [Hprev|[_ (l & Hin & Hd)]].
  { rewrite lookup_empty in Hprev. by destruct Hprev. }
  rewrite !replace_parameters_spec. cbn [fst snd].
  rewrite split_join.
  - apply foldl_record_value with (v := image).
    + apply lookup_singleton_eq.
    + apply Forall_fmap, Forall_forall. intros l' _ Hd'. simpl in *.
      apply patch_declares in Hd'; [|done].
      by apply (patch_value _ _ "image"); [|..|apply lookup_singleton_eq].
    + right. exists (patch values l). split.
      * by apply list_elem_of_fmap_2.
      * by apply patch_declares.
  - intros Hnil. apply fmap_nil_inv in Hnil. by apply split_nonempty in Hnil.
  - apply Forall_fmap. eapply Forall_impl; [apply (split_pieces LF)|].
    intros l' Hl'. simpl. by apply patch_line_feed.
Qed.

End WrittenText.

(** ** Writing the prototype *)

Section PrototypeWrite.

Context {Ext : Type} `{Collab : Collaborators Ext}.

Implicit Types (s : state Ext).

Ltac pair_leaf :=
  repeat match goal with
         | H : _ ∈ [] |- _ => by apply not_elem_of_nil in H
         | H : _ ∈ [_] |- _ => apply list_elem_of_singleton in H
         | H : bool_decide _ = true |- _ => apply bool_decide_eq_true_1 in H
         | H : bool_decide _ = false |- _ => apply bool_decide_eq_false_1 in H
         | _ => progress simplify_eq/=
         end.

Lemma update_prototype_protocol (image : string) s :
  wp (update_prototype image) s (λ r s' evs,
    _last_commit s' = _last_commit s
    ∧ kinds evs `prefix_of` [KReadFile; KWriteFile; KRename]
    ∧ (∀ p c, (p, c) ∈ writes evs →
         p = prototype_path +:+ ".tmp"
         ∧ ∃ text, reads evs = [text]
             ∧ c = Py.join (String LF "")
                     (_replace_parameters (Py.split LF text)
                        {[ "image" := image ]}).1
             ∧ is_Some (previous_image text image))
    ∧ (∀ a b, (a, b) ∈ renames evs →
         a = prototype_path +:+ ".tmp" ∧ b = prototype_path)
    ∧ (∀ pf, r = Ok (Some pf) →
         pf = prototype_path
         ∧ kinds evs = [KReadFile; KWriteFile; KRename]
         ∧ succeeded evs = true)).
Proof.
  unfold update_prototype. repeat wp_step.
  all: split; [done|].
  all: split; [vm_compute kinds; by repeat first
                 [ apply prefix_nil | apply prefix_cons ]|].
  all: cbn [writes renames reads omap list_omap app ev_written ev_renamed
            ev_read].
  all: split;
    [intros p c Hin;
     first
       [ by apply not_elem_of_nil in Hin
       | apply list_elem_of_singleton in Hin; simplify_eq; split; [done|];
         eexists; split; [done|]; unfold previous_image;
         match goal with
         | H : _replace_parameters _ _ = _ |- _ => rewrite H
         end; split; [done|by eexists] ]|].
  all: split; [intros ? ? Hin;
               first [ by apply not_elem_of_nil in Hin
                     | by apply list_elem_of_singleton in Hin; simplify_eq ]|].
  all: intros pf Hpf; pair_leaf; done.
Qed.

Lemma update_prototype_returns (image : string) s (pf : string) :
  result (update_prototype image s) = Ok (Some pf) → pf = prototype_path.
Proof.
  pattern (update_prototype image s). apply wp_outcome.
  cbn [result final emitted].
  eapply wp_mono; [apply update_prototype_protocol|].
  intros r s' evs (_ & _ & _ & _ & Hok) Hr. by destruct (Hok _ Hr).
Qed.

(** [update_prototype] reads the prototype, writes only the file
    [<prototype>.tmp], renames only that file over the prototype, in this
    order, and returns the path of the prototype only when all three
    steps succeeded; it leaves the memoized revision alone. *)
Theorem update_prototype_write_then_rename (image : string) s :
  let o := update_prototype image s in
  kinds (emitted o) `prefix_of` [KReadFile; KWriteFile; KRename]
  ∧ (∀ p c, (p, c) ∈ writes (emitted o) → p = prototype_path +:+ ".tmp")
  ∧ (∀ a b, (a, b) ∈ renames (emitted o) →
       a = prototype_path +:+ ".tmp" ∧ b = prototype_path)
  ∧ (∀ pf, result o = Ok (Some pf) →
       pf = prototype_path
       ∧ kinds (emitted o) = [KReadFile; KWriteFile; KRename]
       ∧ succeeded (emitted o) = true)
  ∧ _last_commit (final o) = _last_commit s.
Proof.
  intros o. pattern o. apply wp_outcome. cbn [result final emitted].
  eapply wp_mono; [apply update_prototype_protocol|].
  intros r s' evs (Hc & Hk & Hw & Hr & Hok).
  repeat split; try done.
  - intros p c Hin. by destruct (Hw _ _ Hin).
  - by destruct (Hr _ _ H).
  - by destruct (Hr _ _ H).
  - by destruct (Hok _ H) as (? & ? & ?).
  - by destruct (Hok _ H) as (? & ? & ?).
  - by destruct (Hok _ H) as (? & ? & ?).
Qed.

(** What [update_prototype] writes for an image that is a single token is
    a text in which the image is current: patching it again with the same
    image records that image as the previous value. *)
Theorem update_prototype_writes_current (image : string) s :
  Py.is_token image = true →
  ∀ p c, (p, c) ∈ writes (emitted (update_prototype image s)) →
         previous_image c image = Some image.
Proof.
  intros Himage. pattern (update_prototype image s). apply wp_outcome.
  cbn [result final emitted].
  eapply wp_mono; [apply update_prototype_protocol|].
  intros r s' evs (_ & _ & Hw & _) p c Hin.
  destruct (Hw _ _ Hin) as (_ & text & _ & -> & Hprev).
  by apply patched_text_current.
Qed.

End PrototypeWrite.

Lemma update_prototype_writes_current_witness :
  previous_image
    "// @optionalParam image string gcr.io/proj/jupyter-web-app:abc123 The image"
    "gcr.io/proj/jupyter-web-app:abc123"
  = Some "gcr.io/proj/jupyter-web-app:abc123".
Proof.
  apply (update_prototype_writes_current
           "gcr.io/proj/jupyter-web-app:abc123" (fresh usual) eq_refl
           (prototype_path +:+ ".tmp")).
  vm_compute. apply list_elem_of_here.
Defined.

(** ** The memoized revision *)

Section Revision.

Context {Ext : Type} `{Collab : Collaborators Ext}.

Implicit Types (s : state Ext).

Lemma rstrip_append (c : ascii) (h : string) :
  contains c h = false → Py.rstrip c (h +:+ String c "") = h.
Proof.
  induction h as [|a h IH]; intros H.
  - simpl. by destruct (decide (c = c)).
  - simpl in H. apply orb_false_iff in H as [Ha Hh].
    apply bool_decide_eq_false_1 in Ha. rewrite app_cons. simpl.
    rewrite IH by done. destruct h; [|done]. by destruct (decide (a = c)).
Qed.

(** Stripping the character that encloses a text without it gives the
    text. *)
Lemma strip_enclosed (c : ascii) (h : string) :
  contains c h = false → Py.strip c (String c (h +:+ String c "")) = h.
Proof.
  intros H. unfold Py.strip. simpl. destruct (decide (c = c)); [|done].
  destruct h as [|a h].
  - simpl. by destruct (decide (c = c)).
  - pose proof H as H'. simpl in H'. apply orb_false_iff in H' as [Ha _].
    apply bool_decide_eq_false_1 in Ha. rewrite app_cons. simpl.
    destruct (decide (a = c)); [done|].
    change (String a (h +:+ String c "")) with (String a h +:+ String c "").
    by apply rstrip_append.
Qed.

Lemma last_commit_cached s (v : string) :
  _last_commit s = Some v → v ≠ "" →
  last_commit s = Outcome (Ok v) s [].
Proof.
  intros Hs Hv. unfold last_commit, mbind, M_bind, bind, get_last_commit.
  cbn. rewrite Hs. by destruct v.
Qed.

Lemma last_commit_query s :
  Py.truthy (_last_commit s) = false →
  last_commit s
  = let out := perform string (UtilRun git_log_command None (Some _root_dir))
                 (ext s) in
    match out.1 with
    | Ok text =>
        Outcome (Ok (Py.strip dquote text))
          (State out.2 (Some (Py.strip dquote text)))
          [Ev (UtilRun git_log_command None (Some _root_dir)) (Ok text)]
    | Raise e =>
        Outcome (Raise e) (State out.2 (_last_commit s))
          [Ev (UtilRun git_log_command None (Some _root_dir)) (Raise e)]
    end.
Proof.
  intros Hs. unfold last_commit, mbind, M_bind, bind, get_last_commit, call,
    set_last_commit, ret, git_log_command.
  cbn. rewrite Hs. cbn.
  by destruct (perform string _ (ext s)) as [[text|e] w].
Qed.

(** [last_commit] memoizes: once it has returned a revision that is not
    empty, asking again returns it without running [git log]; with a
    revision held it runs nothing at all; and an empty revision is not
    kept: the next access runs [git log] again. *)
Theorem last_commit_memoized s :
  let o := last_commit s in
  (∀ v, result o = Ok v → _last_commit (final o) = Some v)
  ∧ (∀ v, result o = Ok v → v ≠ "" →
       last_commit (final o) = Outcome (Ok v) (final o) [])
  ∧ (result o = Ok "" → kinds (emitted (last_commit (final o))) = [KGitLog])
  ∧ (Py.truthy (_last_commit s) = true → final o = s ∧ emitted o = [])
  ∧ (Py.truthy (_last_commit s) = false →
       commands (emitted o) = [(git_log_command, None, Some _root_dir)]).
Proof.
  intros o.
  assert (∀ v, result o = Ok v → _last_commit (final o) = Some v) as Hkeep.
  { subst o. destruct (Py.truthy (_last_commit s)) eqn:Ht.
    - destruct (_last_commit s) as [[|a c]|] eqn:Hs; try done.
      rewrite (last_commit_cached s (String a c)) by done. cbn. congruence.
    - rewrite last_commit_query by done. cbv zeta.
      destruct (perform _ _ _).1; cbn; congruence. }
  split; [exact Hkeep|]. split; [|split; [|split]].
  - intros v Hv Hne. by apply last_commit_cached; [apply Hkeep|].
  - intros Hv. rewrite last_commit_query by (by rewrite (Hkeep _ Hv)).
    cbv zeta. by destruct (perform _ _ _).1.
  - intros Ht. subst o.
    destruct (_last_commit s) as [[|a c]|] eqn:Hs; try done.
    by rewrite (last_commit_cached s (String a c)).
  - intros Ht. subst o. rewrite last_commit_query by done. cbv zeta.
    by destruct (perform _ _ _).1.
Qed.

(** When [git log] prints the abbreviated hash between double quotes, as
    the format [--pretty=format:"%h"] makes it, [last_commit] returns the
    hash without the quotes and holds it. *)
Theorem last_commit_unquotes s (h : string) (w : Ext) :
  Py.truthy (_last_commit s) = false →
  contains dquote h = false →
  perform string (UtilRun git_log_command None (Some _root_dir)) (ext s)
  = (Ok (String dquote (h +:+ String dquote "")), w) →
  result (last_commit s) = Ok h
  ∧ _last_commit (final (last_commit s)) = Some h.
Proof.
  intros Ht Hh Hrun. rewrite last_commit_query by done. rewrite Hrun.
  cbv zeta. cbn [fst snd result final _last_commit].
  by rewrite strip_enclosed.
Qed.

End Revision.

Lemma last_commit_unquotes_witness :
  result (last_commit (fresh usual)) = Ok "abc123"
  ∧ _last_commit (final (last_commit (fresh usual))) = Some "abc123".
Proof.
  apply (last_commit_unquotes (fresh usual) "abc123" usual);
    reflexivity.
Defined.

(** ** The remote of the fork *)

Section ForkRemote.

Context {Ext : Type} `{Collab : Collaborators Ext}.

Implicit Types (s : state Ext).

Lemma find_first (url : string) (rs : list remote) :
  (∀ r, List.find (λ r, bool_decide (url ∈ remote_urls r)) rs = Some r
        ↔ ∃ i : nat, rs !! i = Some r ∧ url ∈ remote_urls r
            ∧ ∀ (j : nat) r', j < i → rs !! j = Some r' →
                url ∉ remote_urls r')
  ∧ (List.find (λ r, bool_decide (url ∈ remote_urls r)) rs = None
     ↔ ∀ r, r ∈ rs → url ∉ remote_urls r).
Proof.
  induction rs as [|r0 rs [IHs IHn]]; simpl.
  - split.
    + intros r. split; [done|]. by intros (i & ? & _).
    + split; [intros _ r ?%not_elem_of_nil; done|done].
  - case_bool_decide as H0.
    + split.
      * intros r. split.
        -- intros [= <-]. exists 0. split; [done|]. split; [done|]. lia.
        -- intros ([|i] & Hi & Hu & Hfirst); [by simplify_eq/=|].
           exfalso. apply (Hfirst 0 r0); [lia|done|done].
      * split; [done|]. intros Hall. exfalso.
        apply (Hall r0); [apply list_elem_of_here|done].
    + split.
      * intros r. rewrite IHs. split.
        -- intros (i & Hi & Hu & Hfirst). exists (S i).
           split; [done|]. split; [done|].
           intros [|j] r' Hj Hr'; [by simplify_eq/=|].
           apply (Hfirst j); [lia|done].
        -- intros ([|i] & Hi & Hu & Hfirst); [by simplify_eq/=|].
           exists i. split; [done|]. split; [done|].
           intros j r' Hj Hr'. apply (Hfirst (S j)); [lia|done].
      * rewrite IHn. split.
        -- intros Hall r [->|Hin]%elem_of_cons; [done|by apply Hall].
        -- intros Hall r Hin. by apply Hall, list_elem_of_further.
Qed.

(** [_find_remote_repo] returns the first configured remote that has the
    URL among its URLs, and [None] exactly when no remote has it. *)
Theorem find_remote_repo_first (url : string) s :
  let o := _find_remote_repo url s in
  ∀ rs, rs ∈ remote_lists (emitted o) →
    (∀ r, result o = Ok (Some r)
          ↔ ∃ i : nat, rs !! i = Some r ∧ url ∈ remote_urls r
              ∧ ∀ (j : nat) r', j < i → rs !! j = Some r' →
                  url ∉ remote_urls r')
    ∧ (result o = Ok None ↔ ∀ r, r ∈ rs → url ∉ remote_urls r).
Proof.
  intros o. pattern o. apply wp_outcome. cbn [result final emitted].
  unfold _find_remote_repo. repeat wp_step.
  all: cbn [remote_lists omap list_omap app ev_remotes]; intros rs Hin.
  2:{ by apply not_elem_of_nil in Hin. }
  apply list_elem_of_singleton in Hin. subst rs.
  destruct (find_first url a) as [Hs Hn]. split.
  - intros r. rewrite <- Hs. split; congruence.
  - rewrite <- Hn. split; congruence.
Qed.

Lemma split_once_found (c : ascii) (h rest : string) :
  contains c h = false →
  Py.split_once c (h +:+ String c rest) = (h, Some rest).
Proof.
  induction h as [|a h IH]; intros H.
  - rewrite app_empty_l. simpl. by destruct (decide (c = c)).
  - simpl in H. apply orb_false_iff in H as [Ha Hh].
    apply bool_decide_eq_false_1 in Ha. rewrite app_cons. simpl.
    destruct (decide (a = c)); [done|]. by rewrite IH.
Qed.

Lemma split_once_absent (c : ascii) (l : string) :
  (Py.split_once c l).2 = None ↔ contains c l = false.
Proof.
  induction l as [|a l IH]; simpl; [done|].
  destruct (decide (a = c)) as [->|Hne].
  - rewrite bool_decide_eq_true_2 by done. simpl. split; done.
  - rewrite bool_decide_eq_false_2 by done. simpl.
    destruct (Py.split_once c l) as [h t]. simpl in *. done.
Qed.

Lemma split_once_whole (c : ascii) (l : string) :
  contains c l = false → Py.split_once c l = (l, None).
Proof.
  induction l as [|a l IH]; simpl; [done|]. intros H.
  apply orb_false_iff in H as [Ha Hl]. apply bool_decide_eq_false_1 in Ha.
  destruct (decide (a = c)); [done|]. by rewrite IH.
Qed.

(** The remote added for a URL [host:owner/rest] is named [owner]; a URL
    with neither [:] nor [/] names the remote by the whole URL. *)
Theorem fork_name_owner (host owner rest : string) :
  contains ":" host = false → contains "/" owner = false →
  fork_name (host +:+ String ":" (owner +:+ String "/" rest)) = owner
  ∧ (contains "/" host = false → fork_name host = host).
Proof.
  intros Hhost Howner. unfold fork_name. split.
  - rewrite split_once_found by done. simpl.
    by rewrite split_once_found.
  - intros Hslash. rewrite (split_once_whole ":" host) by done. simpl.
    by rewrite split_once_whole.
Qed.

(** [all] adds a remote only when no configured remote has the fork URL,
    and then under the name [fork_name] gives with the fork URL; when the
    set-up succeeds the URL starts with [git@github.com] and the remote
    it returns is a configured one with that URL, or the one
    [create_remote] has just returned for that name and URL. *)
Theorem all_setup_remote (rf : string) (agh : bool) s :
  let o := all_setup rf agh s in
  (∀ name url, (name, url) ∈ remotes_added (emitted o) →
     name = fork_name rf ∧ url = rf
     ∧ ∀ rs r, rs ∈ remote_lists (emitted o) → r ∈ rs →
               rf ∉ remote_urls r)
  ∧ (∀ lc r, result o = Ok (lc, r) →
       Py.startswith "git@github.com" rf = true
       ∧ ((remotes_added (emitted o) = []
           ∧ remotes_created (emitted o) = []
           ∧ ∃ rs, rs ∈ remote_lists (emitted o) ∧ r ∈ rs
                   ∧ rf ∈ remote_urls r)
          ∨ (remotes_added (emitted o) = [(fork_name rf, rf)]
             ∧ remotes_created (emitted o) = [r]))).
Proof.
  intros o. pattern o. apply wp_outcome. cbn [result final emitted].
  unfold all_setup, last_commit, _find_remote_repo.
  repeat wp_step.
  all: cbn [remotes_added remotes_created remote_lists omap list_omap app
            ev_added ev_created ev_remotes].
  all: split;
    [intros name url Hin;
     first
       [ by apply not_elem_of_nil in Hin
       | apply list_elem_of_singleton in Hin; simplify_eq;
         split; [done|]; split; [done|];
         let rs := fresh "rs" in let r := fresh "r" in
         intros rs r Hrs Hr; apply list_elem_of_singleton in Hrs;
         subst rs;
         match goal with
         | H : List.find _ _ = None |- _ =>
             by apply (proj1 (proj2 (find_first _ _)) H)
         end ]|].
  all: intros ? ? Hr; simplify_eq.
  all: split;
    [by match goal with
        | H : negb (Py.startswith _ _) = false |- _ =>
            apply negb_false_iff in H
        end|].
  all: first
    [ by right
    | left; split; [done|]; split; [done|];
      eexists; split; [apply list_elem_of_here|];
      match goal with
      | H : List.find _ _ = Some _ |- _ =>
          apply (proj1 (find_first _ _)) in H as (i & Hi & Hu & _)
      end;
      split; [by eapply list_elem_of_lookup_2|done] ].
Qed.

End ForkRemote.

Lemma fork_name_owner_witness : fork_name fork_ssh = "jlewi".
Proof.
  apply (fork_name_owner "git@github.com" "jlewi" "kubeflow.git");
    reflexivity.
Defined.

(** ** The check for an open pull request *)

Section PullRequestCheck.

Context {Ext : Type} `{Collab : Collaborators Ext}.

Implicit Types (s : state Ext).

Lemma parse_prs_total (lines : list string) (acc : gmap string string) :
  Forall (λ l, contains ";" l = true) lines →
  ∃ prs, parse_prs acc lines = Ok prs.
Proof.
  revert acc. induction lines as [|l lines IH]; intros acc Hall; simpl.
  - by eexists.
  - apply Forall_cons in Hall as [Hl Hall].
    destruct (Py.split_once ";" l) as [n [t|]] eqn:E; [by apply IH|].
    assert ((Py.split_once ";" l).2 = None) as Hnone by by rewrite E.
    apply split_once_absent in Hnone. congruence.
Qed.

Lemma parse_prs_fails (lines : list string) (acc : gmap string string) :
  Exists (λ l, contains ";" l = false) lines →
  ∃ msg, parse_prs acc lines = Raise (ValueError msg).
Proof.
  revert acc. induction lines as [|l lines IH]; intros acc Hex; simpl.
  - by apply Exists_nil in Hex.
  - destruct (Py.split_once ";" l) as [n [t|]] eqn:E; [|by eexists].
    apply Exists_cons in Hex as [Hl|Hex]; [|by apply IH].
    apply split_once_absent in Hl. rewrite E in Hl. done.
Qed.

(** [_check_if_pr_exists] asks for the listing at most once and runs
    [git log] only when it is given no revision.  When every record of the
    listing has a [;], it returns whether a record has the title built
    from the revision (the one given, or the memoized one when none is
    given); a record without [;] makes it raise [ValueError]. *)
Theorem check_if_pr_exists_result (commit : option string) s :
  let o := _check_if_pr_exists commit s in
  count KListPRs (emitted o) ≤ 1
  ∧ (KGitLog ∈ kinds (emitted o) → Py.truthy commit = false)
  ∧ ∀ out, out ∈ listings (emitted o) →
      (Forall (λ l, contains ";" l = true) (Py.splitlines out) →
       ∃ c, result o = Ok (listed (_pr_title (Some c)) out)
            ∧ if Py.truthy commit then commit = Some c
              else _last_commit (final o) = Some c)
      ∧ (Exists (λ l, contains ";" l = false) (Py.splitlines out) →
         ∃ msg, result o = Raise (ValueError msg)).
Proof.
  intros o. pattern o. apply wp_outcome. cbn [result final emitted].
  unfold _check_if_pr_exists, last_commit. repeat wp_step.
  all: split; [vm_compute; lia|].
  all: split;
    [first
       [ by intros _;
            repeat match goal with
                   | H : negb _ = true |- _ => apply negb_true_iff in H
                   end
       | intros Hin; exfalso; revert Hin;
         apply (bool_decide_unpack (_ ∉ _)); vm_compute; exact I ]|].
  all: vm_compute listings; intros out Hin.
  all: first [ by apply not_elem_of_nil in Hin
             | apply list_elem_of_singleton in Hin; subst out ].
  all: split;
    [intros Hall|
     intros Hex;
     match goal with
     | H : parse_prs _ _ = Ok _ |- _ =>
         destruct (parse_prs_fails _ ∅ Hex) as [? Hp]; by rewrite Hp in H
     | H : parse_prs _ _ = Raise _ |- _ =>
         destruct (parse_prs_fails _ ∅ Hex) as [? Hp];
         rewrite Hp in H; simplify_eq; by eexists
     end].
  all: match goal with
       | H : parse_prs _ _ = Raise _ |- _ =>
           destruct (parse_prs_total _ ∅ Hall) as [? Hp]; by rewrite Hp in H
       | H : parse_prs _ _ = Ok _ |- _ =>
           rewrite (parse_prs_listed _ _ _ H)
       end.
  all: eexists; split; [reflexivity|].
  all: repeat match goal with
              | H : negb _ = true |- _ => apply negb_true_iff in H
              | H : negb _ = false |- _ => apply negb_false_iff in H
              end.
  all: repeat match goal with
              | H : Py.truthy ?x = _ |- context [Py.truthy ?x] => rewrite H
              end.
  all: try done.
  all: try (destruct commit as [[|??]|]; done).
  all: destruct (_last_commit s) as [[|??]|]; done.
Qed.

End PullRequestCheck.

(** ** The build *)

Section Build.

Context {Ext : Type} `{Collab : Collaborators Ext}.

Implicit Types (s : state Ext).

(** [build_image] obtains a temporary file name, runs [make build-gcb] in
    the component directory with [PROJECT], [REGISTRY_PROJECT], [GIT_TAG]
    (the memoized revision as it is, possibly [None]) and [OUTPUT] (that
    name), then loads that same file.  What it returns is decided by what
    was loaded: the [image] field of a mapping that has one, [KeyError]
    for a mapping without it, [TypeError] for what is not a mapping (an
    empty file loads as [None]).  A failed step ends it: the steps taken
    are a prefix of the three. *)
Theorem build_image_output (bp rp : string) s :
  let o := build_image bp rp s in
  kinds (emitted o) `prefix_of` [KTempFile; KBuild; KLoadYaml]
  ∧ (∀ cmd, cmd ∈ commands (emitted o) →
       ∃ name, temp_names (emitted o) = [name]
         ∧ cmd = (["make"; "build-gcb"],
                  Some [("PROJECT", Some bp); ("REGISTRY_PROJECT", Some rp);
                        ("GIT_TAG", _last_commit s); ("OUTPUT", Some name)],
                  Some _component_dir))
  ∧ (∀ path, path ∈ loaded_paths (emitted o) →
       temp_names (emitted o) = [path])
  ∧ (∀ image, result o = Ok image
       ↔ ∃ doc, documents (emitted o) = [doc] ∧ doc !! "image" = Some image)
  ∧ (∀ doc, documents (emitted o) = [doc] → doc !! "image" = None →
       result o = Raise (KeyError "image"))
  ∧ (∀ data, data ∈ yaml_values (emitted o) →
       yaml_values (emitted o) = [data]
       ∧ result o = match data with
                    | YamlMapping doc =>
                        match doc !! "image" with
                        | Some image => Ok image
                        | None => Raise (KeyError "image")
                        end
                    | YamlOther => Raise TypeError
                    end)
  ∧ _last_commit (final o) = _last_commit s.
Proof.
  intros o. pattern o. apply wp_outcome. cbn [result final emitted].
  unfold build_image, subscript. repeat wp_step.
  all: split; [vm_compute kinds; by repeat first
                 [ apply prefix_nil | apply prefix_cons ]|].
  all: cbn [commands temp_names loaded_paths documents yaml_values omap
            list_omap app ev_command ev_temp ev_loaded ev_document ev_yaml].
  all: split;
    [intros cmd Hin;
     first [ by apply not_elem_of_nil in Hin
           | apply list_elem_of_singleton in Hin; subst cmd; by eexists ]|].
  all: split;
    [intros path Hin;
     first [ by apply not_elem_of_nil in Hin
           | by apply list_elem_of_singleton in Hin; subst path ]|].
  all: split;
    [intros image; split;
     [intros Hr; simplify_eq; by eexists
     |intros (doc & Hd & Hi); simplify_eq; congruence]|].
  all: split; [intros doc Hd Hi; simplify_eq; done|].
  all: split; [|done].
  all: intros data Hin.
  all: first [ by apply not_elem_of_nil in Hin
             | apply list_elem_of_singleton in Hin; subst data ].
  all: split; [done|].
  all: repeat match goal with
              | H : _ !! "image" = _ |- _ => rewrite H
              end; done.
Qed.

End Build.

(** ** The title of the pull request *)

Section Title.

(** The title tells the revisions apart, which is what makes the exact
    match of [_check_if_pr_exists] a test for the revision; the title for
    no revision at all is the title for the revision [None]. *)
Theorem pr_title_revision (a b : string) :
  (_pr_title (Some a) = _pr_title (Some b) ↔ a = b)
  ∧ _pr_title None = _pr_title (Some "None").
Proof.
  split; [|done]. split; [|by intros ->].
  unfold _pr_title. simpl. by intros ?%(inj (String.app _)).
Qed.

End Title.

(** ** The steps of the publishing phase *)

Section PublishSteps.

Context {Ext : Type} `{Collab : Collaborators Ext}.

Implicit Types (s : state Ext).

Lemma es_ret {A : Type} (P : event → Prop) (a : A) :
  events_satisfy P (ret (Ext := Ext) a).
Proof. intros s. constructor. Qed.

Lemma es_raise {A : Type} (P : event → Prop) (e : exn) :
  events_satisfy P (raise (Ext := Ext) (A := A) e).
Proof. intros s. constructor. Qed.

Lemma es_call {T : Type} (P : event → Prop) (a : action T) :
  (∀ r, P (Ev a r)) → events_satisfy P (call a).
Proof.
  intros H s. unfold call. destruct (perform T a (ext s)) as [r e].
  by repeat constructor.
Qed.

Lemma es_bind {A B : Type} (P : event → Prop) (m : M Ext A)
    (k : A → M Ext B) :
  events_satisfy P m → (∀ a, events_satisfy P (k a)) →
  events_satisfy P (m ≫= k).
Proof.
  intros Hm Hk s. unfold mbind, M_bind, bind. specialize (Hm s).
  destruct (result (m s)) as [a|e]; [|done]. simpl.
  apply Forall_app. split; [done|apply Hk].
Qed.

Lemma es_bind_returns {A B : Type} (P : event → Prop) (Q : A → Prop)
    (m : M Ext A) (k : A → M Ext B) :
  events_satisfy P m → (∀ s a, result (m s) = Ok a → Q a) →
  (∀ a, Q a → events_satisfy P (k a)) →
  events_satisfy P (m ≫= k).
Proof.
  intros Hm HQ Hk s. unfold mbind, M_bind, bind. specialize (Hm s).
  destruct (result (m s)) as [a|e] eqn:Hr; [|done]. simpl.
  apply Forall_app. split; [done|]. by apply Hk, (HQ s).
Qed.

Lemma es_getitem (P : event → Prop) d key :
  events_satisfy P (getitem (Ext := Ext) d key).
Proof. unfold getitem. destruct (d !! key); [apply es_ret|apply es_raise]. Qed.

Lemma es_last_commit (P : event → Prop) :
  (∀ r, P (Ev (UtilRun git_log_command None (Some _root_dir)) r)) →
  events_satisfy P last_commit.
Proof.
  intros H s. destruct (Py.truthy (_last_commit s)) eqn:Ht.
  - destruct (_last_commit s) as [[|a c]|] eqn:Hs; try done.
    rewrite (last_commit_cached s (String a c)) by done. constructor.
  - rewrite last_commit_query by done. cbv zeta.
    destruct (perform _ _ _).1; by repeat constructor.
Qed.

Ltac es_step :=
  lazymatch goal with
  | |- events_satisfy _ (_ ≫= _) => apply es_bind; [|intros ?]
  | |- events_satisfy _ (call _) => apply es_call; intros ?
  | |- events_satisfy _ (ret _) => apply es_ret
  | |- events_satisfy _ (mret _) => apply es_ret
  | |- events_satisfy _ (raise _) => apply es_raise
  | |- events_satisfy _ (getitem _ _) => apply es_getitem
  | |- events_satisfy _ last_commit => apply es_last_commit; intros ?
  | |- events_satisfy _ (if ?b then _ else _) => destruct b
  | |- events_satisfy _ (match ?x with _ => _ end) => destruct x
  end; cbv beta iota zeta.

Lemma all_publish_satisfies (lc : string) (remote_repo : remote)
    (image : string) :
  events_satisfy (publish_step lc remote_repo image)
                 (all_publish lc remote_repo image).
Proof.
  unfold all_publish.
  apply es_bind_returns with (Q := λ pf, pf = None ∨ pf = Some prototype_path).
  - unfold update_prototype. repeat es_step.
    all: cbv [publish_step]; by repeat split.
  - intros s [pf|] Hr; [right|by left].
    by rewrite (update_prototype_returns image s pf Hr).
  - intros pf [->| ->]; [apply es_ret|].
    rewrite prototype_path_truthy. cbn [negb]. cbv iota.
    unfold _check_if_pr_exists, create_pull_request.
    repeat es_step.
    all: cbv [publish_step command_kind git_log_command String.append].
    all: repeat split; try reflexivity; try (by eexists).
Qed.

(** Whatever the publishing phase of [all] does is one of these: it reads
    the prototype, writes [<prototype>.tmp] and renames it over the
    prototype; asks for the active branch and the branches; checks out or
    creates the branch [update_jupyter_<revision>]; lists the open pull
    requests; stages the prototype; commits with the message naming the
    image; force-pushes to the remote of the fork; writes the title for
    the revision as the message and opens the pull request against
    [kubeflow:master] with that file.  Every command runs in the root
    directory with the inherited environment. *)
Theorem all_publish_steps (lc : string) (remote_repo : remote)
    (image : string) s :
  Forall (publish_step lc remote_repo image)
         (emitted (all_publish lc remote_repo image s)).
Proof. apply all_publish_satisfies. Qed.

End PublishSteps.

(** ** The order of the publishing steps *)

Section PublishOrder.

Context {Ext : Type} `{Collab : Collaborators Ext}.

Implicit Types (s : state Ext).

Lemma commit_messages_app (evs1 evs2 : list event) :
  commit_messages (evs1 ++ evs2) = commit_messages evs1 ++ commit_messages evs2.
Proof. apply omap_app. Qed.

Lemma ev_commit_message_kind (ev : event) (m : string) :
  ev_commit_message ev = Some m → ev_kind ev = KCommit.
Proof. destruct ev as [T a r]. by destruct a. Qed.

Lemma commit_messages_absent (evs : list event) (ks : list kind) :
  Forall (λ k, k ∈ ks) (kinds evs) → KCommit ∉ ks → commit_messages evs = [].
Proof.
  intros Hall Hk. induction evs as [|ev evs IH]; [done|].
  apply Forall_cons in Hall as [Hev Hall]. unfold commit_messages. simpl.
  destruct (ev_commit_message ev) as [m|] eqn:E; [|by apply IH].
  apply ev_commit_message_kind in E. congruence.
Qed.

Lemma publishing_absent (evs : list event) (ks : list kind) :
  Forall (λ k, k ∈ ks) (kinds evs) →
  Forall (λ k, k ∉ ks) publishing →
  filter (λ k, k ∈ publishing) (kinds evs) = [].
Proof.
  intros Hall Hno. induction (kinds evs) as [|k l IH]; [done|].
  apply Forall_cons in Hall as [Hk Hall]. rewrite filter_cons.
  destruct (decide (k ∈ publishing)) as [Hin|_]; [|by apply IH].
  rewrite Forall_forall in Hno. by destruct (Hno _ Hin).
Qed.

Lemma publish_commit_messages (lc : string) (remote_repo : remote)
    (image : string) (evs : list event) :
  Forall (publish_step lc remote_repo image) evs →
  ∀ m, m ∈ commit_messages evs →
       m = "Update the jupyter web app image to " +:+ image.
Proof.
  induction evs as [|ev evs IH]; intros Hall m Hin.
  - by apply not_elem_of_nil in Hin.
  - apply Forall_cons in Hall as [Hev Hall]. unfold commit_messages in Hin.
    simpl in Hin. destruct (ev_commit_message ev) as [m'|] eqn:E.
    + apply elem_of_cons in Hin as [->|Hin]; [|by apply IH].
      destruct ev as [T a r]. destruct a; try done. simpl in *. congruence.
    + by apply IH.
Qed.

Lemma all_publish_steps_wp (lc : string) (remote_repo : remote)
    (image : string) s :
  wp (all_publish lc remote_repo image) s
     (λ _ _ evs, Forall (publish_step lc remote_repo image) evs).
Proof. apply all_publish_satisfies. Qed.

Lemma all_publish_order (lc : string) (remote_repo : remote) (image : string)
    s :
  wp (all_publish lc remote_repo image) s (λ r s' evs,
    filter (λ k, k ∈ publishing) (kinds evs) `prefix_of` publishing
    ∧ (KIndexAdd ∈ kinds evs →
       take 3 (kinds evs) = [KReadFile; KWriteFile; KRename]
       ∧ KListPRs ∈ kinds evs)
    ∧ (r = Ok tt →
       kinds evs = [KReadFile]
       ∨ (KListPRs ∈ kinds evs ∧ KIndexAdd ∉ kinds evs)
       ∨ (KCreatePR ∈ kinds evs ∧ succeeded evs = true))).
Proof.
  unfold all_publish, update_prototype, _check_if_pr_exists,
    create_pull_request, last_commit.
  repeat wp_step.
  all: cbn [kinds fmap list_fmap app ev_kind kind_of command_kind].
  all: split; [vm_compute filter; by repeat first
                 [ apply prefix_nil | apply prefix_cons ]|].
  all: split;
    [first [ by split; [|decide_kind]
           | intros Hin; exfalso; revert Hin;
             apply (bool_decide_unpack (_ ∉ _)); vm_compute; exact I ]|].
  all: intros Hr; try discriminate Hr.
  all: first [ by left
             | right; left; split; decide_kind
             | right; right; split; [decide_kind|reflexivity] ].
Qed.

(** In a run of [all] the publishing steps come in the order staging,
    commit, push, message file, pull request, each only after the one
    before it; nothing is staged before the prototype has been renamed
    and the pull requests listed; and every commit message names the
    image the run resolved. *)
Theorem all_publishes_in_order (bp rp rf : string) (agh : bool) s :
  let o := all bp rp rf agh s in
  filter (λ k, k ∈ publishing) (kinds (emitted o)) `prefix_of` publishing
  ∧ (KIndexAdd ∈ kinds (emitted o) →
     KRename ∈ kinds (emitted o) ∧ KListPRs ∈ kinds (emitted o))
  ∧ (∀ m, m ∈ commit_messages (emitted o) →
       ∃ image, resolved (emitted o) = Some image
                ∧ m = "Update the jupyter web app image to " +:+ image).
Proof.
  intros o. pattern o. apply wp_outcome, wp_all. cbn [result final emitted].
  eapply wp_mono; [apply all_setup_spec|].
  intros r1 s1 evs1 (Hk1 & _ & _).
  assert (filter (λ k, k ∈ publishing) (kinds evs1) = []) as Hp1.
  { apply (publishing_absent _ _ Hk1). unfold publishing.
    repeat (apply Forall_cons_2; [decide_kind|]). apply Forall_nil_2. }
  assert (KIndexAdd ∉ kinds evs1) as Ha1
    by (apply (kinds_absent _ _ _ Hk1); decide_kind).
  assert (commit_messages evs1 = []) as Hm1
    by (apply (commit_messages_absent _ _ Hk1); decide_kind).
  destruct r1 as [[lc remote_repo]|e1].
  2:{ rewrite Hp1, Hm1. split; [apply prefix_nil|].
      split; [done|]. by intros m ?%not_elem_of_nil. }
  eapply wp_mono; [apply all_resolve_image_spec|].
  intros r2 s2 evs2 (Hk2 & _ & Hres & _).
  assert (filter (λ k, k ∈ publishing) (kinds evs2) = []) as Hp2.
  { apply (publishing_absent _ _ Hk2). unfold publishing.
    repeat (apply Forall_cons_2; [decide_kind|]). apply Forall_nil_2. }
  assert (KIndexAdd ∉ kinds evs2) as Ha2
    by (apply (kinds_absent _ _ _ Hk2); decide_kind).
  assert (commit_messages evs2 = []) as Hm2
    by (apply (commit_messages_absent _ _ Hk2); decide_kind).
  destruct r2 as [image|e2].
  2:{ rewrite kinds_app, filter_app, Hp1, Hp2, commit_messages_app, Hm1, Hm2.
      split; [apply prefix_nil|]. split.
      - rewrite elem_of_app. by intros [?|?].
      - by intros m ?%not_elem_of_nil. }
  eapply wp_mono;
    [apply wp_conj;
     [apply all_publish_order
     |apply wp_conj;
      [apply all_publish_spec
      |apply all_publish_steps_wp]]|].
  intros r3 s3 evs3 ((Horder & Hstaged & _) & (Hk3 & _) & Hsteps).
  rewrite !kinds_app, !filter_app, Hp1, Hp2, !commit_messages_app, Hm1, Hm2.
  simpl. split; [done|]. split.
  - rewrite !elem_of_app. intros [?|[?|Hin]]; [done|done|].
    destruct (Hstaged Hin) as [Htake Hlist]. split.
    + right. right. rewrite <- (take_drop 3 (kinds evs3)), Htake.
      apply elem_of_app. left. decide_kind.
    + by right; right.
  - intros m Hin. exists image. split.
    + rewrite resolved_middle.
      * by destruct (Hres image eq_refl).
      * apply (fetches_absent _ _ Hk1); decide_kind.
      * apply (documents_absent _ _ Hk1); decide_kind.
      * apply (fetches_absent _ _ Hk3); decide_kind.
      * apply (documents_absent _ _ Hk3); decide_kind.
    + by apply (publish_commit_messages lc remote_repo image evs3).
Qed.

End PublishOrder.

(** ** One query of the revision per run *)

Section AsksOnce.

Context {Ext : Type} `{Collab : Collaborators Ext}.

Implicit Types (s : state Ext).

Lemma count_app (k : kind) (evs1 evs2 : list event) :
  count k (evs1 ++ evs2) = count k evs1 + count k evs2.
Proof. unfold count. by rewrite kinds_app, filter_app, length_app. Qed.

Lemma revisions_printed_app (evs1 evs2 : list event) :
  revisions_printed (evs1 ++ evs2)
  = revisions_printed evs1 ++ revisions_printed evs2.
Proof. apply omap_app. Qed.

Lemma ao_silent {A : Type} (m : M Ext A) :
  (∀ s, emitted (m s) = [] ∧ _last_commit (final (m s)) = _last_commit s) →
  asks_once m.
Proof.
  intros H s o. subst o. destruct (H s) as [-> Hc].
  change (count KGitLog []) with 0.
  split; [done|]. intros _. split; [lia|]. split; [lia|done].
Qed.

Lemma ao_ret {A : Type} (a : A) : asks_once (ret (Ext := Ext) a).
Proof. by apply ao_silent. Qed.

Lemma ao_raise {A : Type} (e : exn) : asks_once (raise (Ext := Ext) (A := A) e).
Proof. by apply ao_silent. Qed.

Lemma ao_get : asks_once (get_last_commit (Ext := Ext)).
Proof. by apply ao_silent. Qed.

Lemma ao_getitem d key : asks_once (getitem (Ext := Ext) d key).
Proof. unfold getitem. destruct (d !! key); [apply ao_ret|apply ao_raise]. Qed.

Lemma ao_call {T : Type} (a : action T) :
  kind_of a ≠ KGitLog → asks_once (call a).
Proof.
  intros Hk s o. subst o. unfold call.
  destruct (perform T a (ext s)) as [r e].
  cbn [result final emitted _last_commit].
  assert (count KGitLog [Ev a r] = 0) as H0.
  { unfold count. simpl. rewrite filter_cons. by destruct (decide _). }
  rewrite H0. split; [done|]. intros _. split; [lia|]. split; [lia|done].
Qed.

Lemma ao_try_call {T : Type} (a : action T) :
  kind_of a ≠ KGitLog → asks_once (try (call a)).
Proof.
  intros Hk s o. subst o. unfold try, call.
  destruct (perform T a (ext s)) as [r e].
  cbn [result final emitted _last_commit].
  assert (count KGitLog [Ev a r] = 0) as H0.
  { unfold count. simpl. rewrite filter_cons. by destruct (decide _). }
  rewrite H0. split; [done|]. intros _. split; [lia|]. split; [lia|done].
Qed.

Lemma ao_bind {A B : Type} (m : M Ext A) (k : A → M Ext B) :
  asks_once m → (∀ a, asks_once (k a)) → asks_once (m ≫= k).
Proof.
  intros Hm Hk s o. subst o. unfold mbind, M_bind, bind.
  destruct (Hm s) as [Hm1 Hm2]. cbv zeta in Hm1, Hm2.
  destruct (result (m s)) as [a|e] eqn:Hr;
    cbn [result final emitted _last_commit].
  2:{ split; [done|]. intros Hall. destruct (Hm2 Hall) as (? & ? & ?).
      repeat split; try done. intros _. left. by eexists. }
  destruct (Hk a (final (m s))) as [Hk1 Hk2]. cbv zeta in Hk1, Hk2.
  rewrite count_app, revisions_printed_app. split.
  - intros Ht. destruct (Hm1 Ht) as [-> Hc]. rewrite <- Hc in Ht.
    destruct (Hk1 Ht) as [-> Hc']. split; [done|congruence].
  - intros [Hall1 Hall2]%Forall_app.
    destruct (Hm2 Hall1) as (Hle & Hone & Hzero).
    destruct (Nat.eq_dec (count KGitLog (emitted (m s))) 0) as [H0|H0].
    + rewrite H0. simpl. destruct (Hk2 Hall2) as (Hle' & Hone' & Hzero').
      specialize (Hzero H0). repeat split; try done.
      intros Hc. rewrite (Hzero' Hc). done.
    + assert (count KGitLog (emitted (m s)) = 1) as H1 by lia.
      destruct (Hone H1) as [[e He]|Ht]; [congruence|].
      destruct (Hk1 Ht) as [Hc0 Hc]. rewrite H1, Hc0.
      repeat split; try lia. intros _. right. congruence.
Qed.

Lemma ao_last_commit : asks_once (last_commit (Ext := Ext)).
Proof.
  intros s o. subst o. destruct (Py.truthy (_last_commit s)) eqn:Ht.
  - destruct (_last_commit s) as [[|a c]|] eqn:Hs; try done.
    rewrite (last_commit_cached s (String a c)) by done.
    cbn [result final emitted _last_commit].
    change (count KGitLog []) with 0.
    split; [done|]. intros _. split; [lia|]. split; [lia|done].
  - split; [done|]. rewrite last_commit_query by done. cbv zeta.
    destruct (perform _ _ _) as [[text|e] w];
      cbn [fst snd result final emitted _last_commit].
    + change (count KGitLog [_]) with 1.
      change (revisions_printed [_]) with [text].
      intros Hall. apply Forall_cons in Hall as [Hne _].
      split; [lia|]. split; [|lia]. intros _. right.
      by destruct (Py.strip dquote text).
    + change (count KGitLog [_]) with 1.
      intros _. split; [lia|]. split; [|lia]. intros _. left. by eexists.
Qed.

Ltac ao_step :=
  lazymatch goal with
  | |- asks_once (_ ≫= _) => apply ao_bind; [|intros ?]
  | |- asks_once (try (call _)) => apply ao_try_call; vm_compute; discriminate
  | |- asks_once (call _) => apply ao_call; vm_compute; discriminate
  | |- asks_once (ret _) => apply ao_ret
  | |- asks_once (mret _) => apply ao_ret
  | |- asks_once (raise _) => apply ao_raise
  | |- asks_once get_last_commit => apply ao_get
  | |- asks_once (getitem _ _) => apply ao_getitem
  | |- asks_once last_commit => apply ao_last_commit
  | |- asks_once (if ?b then _ else _) => destruct b
  | |- asks_once (match ?x with _ => _ end) => destruct x
  end; cbv beta iota zeta.

Lemma all_asks_once (bp rp rf : string) (agh : bool) :
  asks_once (all bp rp rf agh).
Proof.
  unfold all, all_setup, all_resolve_image, all_publish, build_image,
    subscript, update_prototype, _find_remote_repo, _check_if_pr_exists,
    create_pull_request.
  repeat ao_step.
Qed.

Lemma all_publish_asks_once (lc : string) (remote_repo : remote)
    (image : string) :
  asks_once (all_publish lc remote_repo image).
Proof.
  unfold all_publish, update_prototype, _check_if_pr_exists,
    create_pull_request.
  repeat ao_step.
Qed.

(** A run of [all] that starts with a revision held never runs [git log];
    any run in which [git log] printed no empty revision runs it at most
    once, however many times the revision is used. *)
Theorem all_queries_revision_once (bp rp rf : string) (agh : bool) s :
  let o := all bp rp rf agh s in
  (Py.truthy (_last_commit s) = true →
   count KGitLog (emitted o) = 0 ∧ _last_commit (final o) = _last_commit s)
  ∧ (Forall (λ out, Py.strip dquote out ≠ "")
            (revisions_printed (emitted o)) →
     count KGitLog (emitted o) ≤ 1).
Proof.
  intros o. destruct (all_asks_once bp rp rf agh s) as [H1 H2].
  split; [exact H1|]. intros Hall. by destruct (H2 Hall).
Qed.

End AsksOnce.

Lemma find_remote_repo_first_witness :
  result (_find_remote_repo "git@github.com:kubeflow/kubeflow.git"
            (fresh usual))
  = Ok (Some (Remote "origin" ["git@github.com:kubeflow/kubeflow.git"])).
Proof.
  destruct (find_remote_repo_first "git@github.com:kubeflow/kubeflow.git"
              (fresh usual) (remotes usual)) as [Hfound _].
  - vm_compute. apply list_elem_of_here.
  - apply Hfound. exists 0. split; [reflexivity|]. split.
    + vm_compute. apply list_elem_of_here.
    + intros j r' Hj. lia.
Defined.

Lemma check_if_pr_exists_result_witness :
  result (_check_if_pr_exists (Some "abc123") (fresh proposed)) = Ok true.
Proof.
  destruct (check_if_pr_exists_result (Some "abc123") (fresh proposed))
    as (_ & _ & Hlisting).
  destruct (Hlisting (pr_listing proposed)) as [Hok _].
  - vm_compute. apply list_elem_of_here.
  - destruct Hok as (c & Hresult & Hc).
    + vm_compute. repeat constructor.
    + cbn in Hc. injection Hc as <-. rewrite Hresult. reflexivity.
Defined.

Lemma all_publishes_in_order_witness :
  ∃ image,
    resolved (emitted (all "kubeflow-ci" "proj" fork_ssh false (fresh usual)))
    = Some image
    ∧ "Update the jupyter web app image to gcr.io/proj/jupyter-web-app:abc123"
      = "Update the jupyter web app image to " +:+ image.
Proof.
  destruct (all_publishes_in_order "kubeflow-ci" "proj" fork_ssh false
              (fresh usual)) as (_ & _ & Hmessage).
  apply Hmessage. vm_compute. apply list_elem_of_here.
Defined.

Lemma all_queries_revision_once_witness :
  count KGitLog (emitted (all "kubeflow-ci" "proj" fork_ssh true (fresh usual)))
  ≤ 1.
Proof.
  destruct (all_queries_revision_once "kubeflow-ci" "proj" fork_ssh true
              (fresh usual)) as [_ Honce].
  apply Honce. vm_compute. repeat constructor. discriminate.
Defined.

(** ** One revision per run *)

Section OneRevision.

Context {Ext : Type} `{Collab : Collaborators Ext}.

Implicit Types (s : state Ext).

Lemma messages_app (evs1 evs2 : list event) :
  messages (evs1 ++ evs2) = messages evs1 ++ messages evs2.
Proof. apply omap_app. Qed.

Lemma commands_app (evs1 evs2 : list event) :
  commands (evs1 ++ evs2) = commands evs1 ++ commands evs2.
Proof. apply omap_app. Qed.

Lemma messages_absent (evs : list event) (ks : list kind) :
  Forall (λ k, k ∈ ks) (kinds evs) → KMessageFile ∉ ks → messages evs = [].
Proof.
  intros Hall Hk. induction evs as [|ev evs IH]; [done|].
  apply Forall_cons in Hall as [Hev Hall]. unfold messages. simpl.
  destruct (ev_message ev) as [m|] eqn:E; [|by apply IH].
  assert (ev_kind ev = KMessageFile) as Hkind.
  { destruct ev as [T a r]. by destruct a. }
  congruence.
Qed.

Lemma commands_kinds (evs : list event) (ks : list kind) :
  Forall (λ k, k ∈ ks) (kinds evs) →
  ∀ argv env cwd, (argv, env, cwd) ∈ commands evs → command_kind argv ∈ ks.
Proof.
  intros Hall argv env cwd Hin. induction evs as [|ev evs IH].
  - by apply not_elem_of_nil in Hin.
  - apply Forall_cons in Hall as [Hev Hall]. unfold commands in Hin.
    simpl in Hin. destruct (ev_command ev) as [cmd|] eqn:E; [|by apply IH].
    apply elem_of_cons in Hin as [<-|Hin]; [|by apply IH].
    destruct ev as [T a r]. destruct a; try done. simpl in *. by simplify_eq.
Qed.

Lemma publish_messages (lc : string) (remote_repo : remote)
    (image : string) (evs : list event) :
  Forall (publish_step lc remote_repo image) evs →
  ∀ content name, (content, name) ∈ messages evs →
                  content = _pr_title (Some lc).
Proof.
  induction evs as [|ev evs IH]; intros Hall content name Hin.
  - by apply not_elem_of_nil in Hin.
  - apply Forall_cons in Hall as [Hev Hall]. unfold messages in Hin.
    simpl in Hin. destruct (ev_message ev) as [m|] eqn:E.
    + apply elem_of_cons in Hin as [<-|Hin]; [|by eapply IH].
      destruct ev as [T a r]. destruct a; try done. simpl in *.
      destruct r; by simplify_eq.
    + by eapply IH.
Qed.

Lemma publish_branches (lc : string) (remote_repo : remote)
    (image : string) (evs : list event) :
  Forall (publish_step lc remote_repo image) evs →
  ∀ argv env cwd, (argv, env, cwd) ∈ commands evs →
    (command_kind argv = KCheckout →
     argv = ["git"; "checkout"; "update_jupyter_" +:+ lc])
    ∧ (command_kind argv = KCreateBranch →
       argv = ["git"; "checkout"; "-b"; "update_jupyter_" +:+ lc]).
Proof.
  induction evs as [|ev evs IH]; intros Hall argv env cwd Hin.
  - by apply not_elem_of_nil in Hin.
  - apply Forall_cons in Hall as [Hev Hall]. unfold commands in Hin.
    simpl in Hin. destruct (ev_command ev) as [cmd|] eqn:E.
    + apply elem_of_cons in Hin as [<-|Hin]; [|by eapply IH].
      destruct ev as [T a r]. destruct a; try done. simpl in *.
      simplify_eq. destruct Hev as (_ & _ & Hev).
      split; intros Hk; by rewrite Hk in Hev.
    + by eapply IH.
Qed.

Lemma all_publish_asks_once_wp (lc : string) (remote_repo : remote)
    (image : string) s :
  wp (all_publish lc remote_repo image) s (λ _ s' _,
    Py.truthy (_last_commit s) = true → _last_commit s' = _last_commit s).
Proof.
  intros Ht. by destruct (all_publish_asks_once lc remote_repo image s)
    as [H _]; destruct (H Ht).
Qed.

(** When the set-up of [all] returns a revision that is not empty, the
    whole run uses that one revision: the image looked up in the registry
    is tagged with it, the branch checked out or created is named after
    it, the message of the pull request is the title for it, and it is
    the revision held when the run ends. *)
Theorem all_uses_one_revision (bp rp rf : string) (agh : bool) s
    (lc : string) (remote_repo : remote) :
  result (all_setup rf agh s) = Ok (lc, remote_repo) → lc ≠ "" →
  let o := all bp rp rf agh s in
  _last_commit (final o) = Some lc
  ∧ (∀ image x, (image, x) ∈ fetches (emitted o) →
       image = ("gcr.io/" +:+ rp +:+ "/jupyter-web-app") +:+ ":" +:+ lc)
  ∧ (∀ argv env cwd, (argv, env, cwd) ∈ commands (emitted o) →
       (command_kind argv = KCheckout →
        argv = ["git"; "checkout"; "update_jupyter_" +:+ lc])
       ∧ (command_kind argv = KCreateBranch →
          argv = ["git"; "checkout"; "-b"; "update_jupyter_" +:+ lc]))
  ∧ (∀ content name, (content, name) ∈ messages (emitted o) →
       content = _pr_title (Some lc)).
Proof.
  intros Hsetup Hlc o. pattern o. apply wp_outcome, wp_all.
  cbn [result final emitted].
  eapply wp_mono; [apply wp_conj; [apply all_setup_spec|apply wp_result]|].
  intros r1 s1 evs1 [(Hk1 & Hc1 & _) ->]. rewrite Hsetup in *.
  specialize (Hc1 _ _ eq_refl).
  assert (Py.truthy (Some lc) = true) as Htruthy by by destruct lc.
  assert (fetches evs1 = []) as Hf1
    by (apply (fetches_absent _ _ Hk1); decide_kind).
  assert (messages evs1 = []) as Hm1
    by (apply (messages_absent _ _ Hk1); decide_kind).
  pose proof (commands_kinds _ _ Hk1) as Hcmd1.
  eapply wp_mono; [apply all_resolve_image_spec|].
  intros r2 s2 evs2 (Hk2 & Hc2 & _ & _ & Hfetch).
  specialize (Hc2 _ Hc1 Htruthy).
  assert (messages evs2 = []) as Hm2
    by (apply (messages_absent _ _ Hk2); decide_kind).
  pose proof (commands_kinds _ _ Hk2) as Hcmd2.
  assert (∀ image x, (image, x) ∈ fetches evs2 →
            image = ("gcr.io/" +:+ rp +:+ "/jupyter-web-app") +:+ ":" +:+ lc)
    as Hf2.
  { intros image x Hin. destruct (Hfetch _ _ Hin) as (_ & (rev & Hrev & ->) & _).
    congruence. }
  assert (∀ evs (ks : list kind),
            (∀ argv env cwd, (argv, env, cwd) ∈ commands evs →
                             command_kind argv ∈ ks) →
            KCheckout ∉ ks → KCreateBranch ∉ ks →
            ∀ argv env cwd, (argv, env, cwd) ∈ commands evs →
              (command_kind argv = KCheckout →
               argv = ["git"; "checkout"; "update_jupyter_" +:+ lc])
              ∧ (command_kind argv = KCreateBranch →
                 argv = ["git"; "checkout"; "-b"; "update_jupyter_" +:+ lc]))
    as Hnone.
  { intros evs ks Hks H1 H2 argv env cwd Hin. specialize (Hks _ _ _ Hin).
    split; intros Hk; by rewrite Hk in Hks. }
  destruct r2 as [image|e2].
  - eapply wp_mono;
      [apply wp_conj;
       [apply all_publish_spec
       |apply wp_conj;
        [apply all_publish_steps_wp|apply all_publish_asks_once_wp]]|].
    intros r3 s3 evs3 ((Hk3 & _) & Hsteps & Hkeep).
    rewrite !fetches_app, !commands_app, !messages_app, Hf1, Hm1, Hm2.
    rewrite (fetches_absent _ _ Hk3) by decide_kind. rewrite app_nil_r.
    simpl. split; [rewrite Hkeep; by rewrite Hc2|]. split; [exact Hf2|].
    split.
    + intros argv env cwd. rewrite !elem_of_app. intros [Hin|[Hin|Hin]].
      * eapply (Hnone _ _ Hcmd1); [decide_kind|decide_kind|exact Hin].
      * eapply (Hnone _ _ Hcmd2); [decide_kind|decide_kind|exact Hin].
      * by apply (publish_branches lc remote_repo image evs3 Hsteps _ env cwd).
    + by apply (publish_messages lc remote_repo image).
  - rewrite !fetches_app, !commands_app, !messages_app, Hf1, Hm1, Hm2.
    simpl. split; [done|]. split; [exact Hf2|]. split.
    + intros argv env cwd. rewrite !elem_of_app. intros [Hin|Hin].
      * eapply (Hnone _ _ Hcmd1); [decide_kind|decide_kind|exact Hin].
      * eapply (Hnone _ _ Hcmd2); [decide_kind|decide_kind|exact Hin].
    + by intros ?? ?%not_elem_of_nil.
Qed.

End OneRevision.

Lemma all_uses_one_revision_witness :
  _last_commit (final (all "kubeflow-ci" "proj" fork_ssh false (fresh usual)))
  = Some "abc123"
  ∧ ∀ content name,
      (content, name)
      ∈ messages (emitted
          (all "kubeflow-ci" "proj" fork_ssh false (fresh usual))) →
      content = _pr_title (Some "abc123").
Proof.
  destruct (all_uses_one_revision "kubeflow-ci" "proj" fork_ssh false
              (fresh usual) "abc123" (Remote "jlewi" [fork_ssh]))
    as (Hheld & _ & _ & Htitle).
  - reflexivity.
  - discriminate.
  - split; [exact Hheld|exact Htitle].
Defined.
